(** * Voice-agent dialogue engine of src/server/routes.ts, shallow embedding

    Strings are modelled as [list ascii] (the utterances and model outputs
    handled here are taken to be ASCII text).  The JavaScript regular
    expressions used by the extractors are written out as terms of a small
    regex syntax [re] and run by a backtracking matcher [mt] that returns
    every way of matching in the priority order of the JavaScript engine, so
    the head of the list is the match JavaScript reports. *)

From Stdlib Require Import String Ascii List Bool Arith ZArith Lia Sorted.
Import ListNotations.
Open Scope list_scope.

(** ** Characters and strings *)

Definition str := list ascii.

(** String literal as a character list. *)
Definition txt (s : string) : str := list_ascii_of_string s.

Definition chr (n : nat) : ascii := ascii_of_nat n.

Definition ascii_eqb (a b : ascii) : bool := Ascii.eqb a b.

(** JavaScript [\s] (ASCII part): tab, LF, VT, FF, CR and space. *)
Definition is_ws (c : ascii) : bool :=
  let n := nat_of_ascii c in ((9 <=? n) && (n <=? 13)) || (n =? 32).

Definition is_upper (c : ascii) : bool :=
  let n := nat_of_ascii c in (65 <=? n) && (n <=? 90).

Definition is_lower (c : ascii) : bool :=
  let n := nat_of_ascii c in (97 <=? n) && (n <=? 122).

Definition is_digit (c : ascii) : bool :=
  let n := nat_of_ascii c in (48 <=? n) && (n <=? 57).

(** [\w]: letters, digits and underscore. *)
Definition is_wordc (c : ascii) : bool :=
  is_upper c || is_lower c || is_digit c || ascii_eqb c "_"%char.

Definition lower (c : ascii) : ascii :=
  if is_upper c then ascii_of_nat (nat_of_ascii c + 32) else c.

Definition upper (c : ascii) : ascii :=
  if is_lower c then ascii_of_nat (nat_of_ascii c - 32) else c.

(** [String.prototype.toLowerCase] / [toUpperCase]. *)
Definition toLowerCase (s : str) : str := map lower s.
Definition toUpperCase (s : str) : str := map upper s.

Fixpoint drop_ws (s : str) : str :=
  match s with
  | c :: t => if is_ws c then drop_ws t else s
  | [] => []
  end.

(** [String.prototype.trim]. *)
Definition trim (s : str) : str := rev (drop_ws (rev (drop_ws s))).

Fixpoint str_eqb (a b : str) : bool :=
  match a, b with
  | [], [] => true
  | x :: a', y :: b' => ascii_eqb x y && str_eqb a' b'
  | _, _ => false
  end.

Fixpoint prefixb (p s : str) : bool :=
  match p, s with
  | [], _ => true
  | x :: p', y :: s' => ascii_eqb x y && prefixb p' s'
  | _ :: _, [] => false
  end.

(** [s.includes(sub)]. *)
Fixpoint includes (s sub : str) : bool :=
  prefixb sub s ||
  match s with
  | [] => false
  | _ :: t => includes t sub
  end.

(** [s.indexOf(sub)], -1 when absent. *)
Fixpoint index_of (s sub : str) : Z :=
  if prefixb sub s then 0%Z
  else match s with
       | [] => (-1)%Z
       | _ :: t => let i := index_of t sub in
                   if (i <? 0)%Z then (-1)%Z else (i + 1)%Z
       end.

(** [s.substring(a, b)]: both ends clamped to [0, length], swapped if
    reversed. *)
Definition substring (s : str) (a b : Z) : str :=
  let len := Z.of_nat (length s) in
  let a' := Z.to_nat (Z.max 0 (Z.min a len)) in
  let b' := Z.to_nat (Z.max 0 (Z.min b len)) in
  let lo := Nat.min a' b' in
  let hi := Nat.max a' b' in
  firstn (hi - lo) (skipn lo s).

(** [s.split(d)] for a one-character separator. *)
Fixpoint split_on (d : ascii) (s : str) : list str :=
  match s with
  | [] => [[]]
  | c :: t =>
      if ascii_eqb c d then [] :: split_on d t
      else match split_on d t with
           | x :: xs => (c :: x) :: xs
           | [] => [[c]]
           end
  end.

Definition digit_char (n : nat) : ascii := ascii_of_nat (48 + n).

Fixpoint digits_aux (fuel n : nat) (acc : str) : str :=
  match fuel with
  | 0 => acc
  | S f =>
      let acc' := digit_char (n mod 10) :: acc in
      if n <? 10 then acc' else digits_aux f (n / 10) acc'
  end.

(** Decimal rendering of a number, as in a template literal. *)
Definition nat_str (n : nat) : str := digits_aux (S n) n [].

Fixpoint lead_digits (s : str) (acc : option nat) : option nat :=
  match s with
  | c :: t =>
      if is_digit c
      then lead_digits t (Some (10 * match acc with Some a => a | None => 0 end
                                  + (nat_of_ascii c - 48)))
      else acc
  | [] => acc
  end.

(** [parseInt(s)]: leading decimal digits; [None] stands for [NaN]. *)
Definition parseInt (s : str) : option nat := lead_digits (drop_ws s) None.

(** ** Regular expressions *)

(** A character class: a list of inclusive ranges, possibly negated. *)
Record cset := CSet { cs_neg : bool; cs_ranges : list (ascii * ascii) }.

Inductive re : Type :=
| RChr (c : ascii)
| RCls (k : cset)
| RRep (k : cset) (lo : nat) (hi : option nat) (greedy : bool)
| RSeq (r1 r2 : re)
| RAlt (r1 r2 : re)
| REps
| RGrp (n : nat) (r : re)
| RBol
| REol
| RWordB.

(** A regex literal: pattern and its [i] flag. *)
Record regex := Regex { rx : re; rx_i : bool }.

Definition in_ranges (c : ascii) (rs : list (ascii * ascii)) : bool :=
  existsb (fun '(a, b) => (nat_of_ascii a <=? nat_of_ascii c)
                          && (nat_of_ascii c <=? nat_of_ascii b)) rs.

(** Class membership; with the [i] flag a character matches when one of its
    case variants is in the class. *)
Definition cls_match (ic : bool) (k : cset) (c : ascii) : bool :=
  let found := if ic then in_ranges c (cs_ranges k) || in_ranges (lower c) (cs_ranges k)
                          || in_ranges (upper c) (cs_ranges k)
               else in_ranges c (cs_ranges k) in
  if cs_neg k then negb found else found.

Definition chr_match (ic : bool) (a c : ascii) : bool :=
  if ic then ascii_eqb (upper a) (upper c) else ascii_eqb a c.

Fixpoint class_run (ic : bool) (k : cset) (s : str) : nat :=
  match s with
  | c :: t => if cls_match ic k c then S (class_run ic k t) else 0
  | [] => 0
  end.

Definition rep_max (ic : bool) (k : cset) (hi : option nat) (s : str) : nat :=
  match hi with
  | Some h => Nat.min h (class_run ic k s)
  | None => class_run ic k s
  end.

Definition last_of (p : option ascii) (s : str) : option ascii :=
  fold_left (fun _ c => Some c) s p.

Definition is_wordc_opt (o : option ascii) : bool :=
  match o with Some c => is_wordc c | None => false end.

Definition caps := list (nat * str).

(** All matches of [r] at a position (previous character [p], remaining
    input [s]), in backtracking priority order: greedy repetition tries the
    longest run first, lazy the shortest, alternation its left branch. *)
Fixpoint mt (ic : bool) (r : re) (p : option ascii) (s : str) (cp : caps)
  : list (option ascii * str * caps) :=
  match r with
  | RChr a => match s with
              | c :: t => if chr_match ic a c then [(Some c, t, cp)] else []
              | [] => []
              end
  | RCls k => match s with
              | c :: t => if cls_match ic k c then [(Some c, t, cp)] else []
              | [] => []
              end
  | RRep k lo hi g =>
      let ks := seq lo (S (rep_max ic k hi s) - lo) in
      map (fun j => (last_of p (firstn j s), skipn j s, cp)) (if g then rev ks else ks)
  | RSeq r1 r2 => flat_map (fun '(p', s', cp') => mt ic r2 p' s' cp') (mt ic r1 p s cp)
  | RAlt r1 r2 => mt ic r1 p s cp ++ mt ic r2 p s cp
  | REps => [(p, s, cp)]
  | RGrp n r1 =>
      map (fun '(p', s', cp') => (p', s', (n, firstn (length s - length s') s) :: cp'))
          (mt ic r1 p s cp)
  | RBol => match p with None => [(p, s, cp)] | Some _ => [] end
  | REol => match s with [] => [(p, s, cp)] | _ => [] end
  | RWordB => if Bool.eqb (is_wordc_opt p) (is_wordc_opt (hd_error s)) then []
              else [(p, s, cp)]
  end.

(** Result of [exec]: text before the match, the match, and what follows. *)
Record mres := MRes {
  m_pre : str; m_whole : str; m_prev : option ascii; m_rest : str; m_caps : caps }.

(** Leftmost match, first in priority order. *)
Fixpoint search (ic : bool) (r : re) (p : option ascii) (s : str) : option mres :=
  match mt ic r p s [] with
  | (p', s', cp) :: _ => Some (MRes [] (firstn (length s - length s') s) p' s' cp)
  | [] => match s with
          | [] => None
          | c :: t => match search ic r (Some c) t with
                      | Some m => Some (MRes (c :: m_pre m) (m_whole m) (m_prev m)
                                             (m_rest m) (m_caps m))
                      | None => None
                      end
          end
  end.

(** [s.match(x)] without the [g] flag. *)
Definition rsearch (x : regex) (s : str) : option mres := search (rx_i x) (rx x) None s.

(** [x.test(s)]. *)
Definition rtest (x : regex) (s : str) : bool :=
  match rsearch x s with Some _ => true | None => false end.

(** [match[n]]. *)
Definition group (m : mres) (n : nat) : option str :=
  match n with
  | 0 => Some (m_whole m)
  | _ => option_map snd (find (fun e => fst e =? n) (m_caps m))
  end.

(** [s.replace(x, repl)] without the [g] flag. *)
Definition rreplace (x : regex) (s repl : str) : str :=
  match rsearch x s with
  | Some m => m_pre m ++ repl ++ m_rest m
  | None => s
  end.

Fixpoint replace_all_aux (fuel : nat) (ic : bool) (r : re) (p : option ascii)
    (s repl : str) : str :=
  match fuel with
  | 0 => s
  | S f =>
      match search ic r p s with
      | None => s
      | Some m =>
          m_pre m ++ repl ++
          match m_whole m with
          | [] => match m_rest m with
                  | [] => []
                  | c :: t => c :: replace_all_aux f ic r (Some c) t repl
                  end
          | _ => replace_all_aux f ic r (m_prev m) (m_rest m) repl
          end
      end
  end.

(** [s.replace(x, repl)] with the [g] flag: matches are replaced left to
    right, each search resuming after the previous match. *)
Definition rreplace_all (x : regex) (s repl : str) : str :=
  replace_all_aux (S (length s)) (rx_i x) (rx x) None s repl.

(** Regex building blocks. *)
Definition lit (s : string) : re :=
  fold_right (fun c r => RSeq (RChr c) r) REps (list_ascii_of_string s).

Definition seqs (l : list re) : re := fold_right RSeq REps l.

Fixpoint alts (l : list re) : re :=
  match l with
  | [] => RCls (CSet false [])
  | [r] => r
  | r :: t => RAlt r (alts t)
  end.

Definition opt (r : re) : re := RAlt r REps.

Definition c_digit : cset := CSet false [("0"%char, "9"%char)].
Definition c_space : cset := CSet false [(chr 9, chr 13); (" "%char, " "%char)].
(** [.]: anything but a line terminator. *)
Definition c_dot : cset := CSet true [(chr 10, chr 10); (chr 13, chr 13)].
Definition c_alpha : cset := CSet false [("a"%char, "z"%char); ("A"%char, "Z"%char)].

Definition rng (k : cset) (lo hi : nat) : re := RRep k lo (Some hi) true.
Definition plus (k : cset) : re := RRep k 1 None true.
Definition qm (k : cset) : re := RRep k 0 (Some 1) true.
Definition lazy_star (k : cset) : re := RRep k 0 None false.
Definition atleast (k : cset) (lo : nat) : re := RRep k lo None true.
Definition d12 : re := rng c_digit 1 2.
Definition sp_plus : re := plus c_space.
Definition sp_opt : re := qm c_space.

(** ** Time-phrase parser ([parseTimeFromText]) *)

Definition two_digits : re := rng c_digit 2 2.
Definition ampm_grp : re := RGrp 2 (alts [lit "AM"; lit "PM"]).

(** [timePatterns], in the source's order. *)
Definition timePatterns : list regex := [
  Regex (RGrp 1 (seqs [d12; RChr ":"%char; two_digits; sp_opt; ampm_grp])) true;
  Regex (RGrp 1 (seqs [d12; sp_opt; ampm_grp])) true;
  Regex (seqs [RGrp 1 d12; sp_opt; alts [lit "o'clock"; lit "oclock"]]) true;
  Regex (seqs [RGrp 1 d12; sp_opt; lit "in the morning"]) true;
  Regex (seqs [RGrp 1 d12; sp_opt; lit "in the afternoon"]) true;
  Regex (seqs [RGrp 1 d12; sp_opt; lit "in the evening"]) true;
  Regex (seqs [RGrp 1 d12; sp_opt; lit "at night"]) true ].

(** [/\d{1,2}\s?(AM|PM)/i], applied to [timeStr]. *)
Definition rx_ampm_suffix : regex :=
  Regex (seqs [d12; sp_opt; RGrp 1 (alts [lit "AM"; lit "PM"])]) true.

Definition hour_str (h : option nat) : str :=
  match h with Some n => nat_str n | None => txt "NaN" end.

Definition hour_le (h : option nat) (n : nat) : bool :=
  match h with Some k => k <=? n | None => false end.

Definition hour_ge (h : option nat) (n : nat) : bool :=
  match h with Some k => n <=? k | None => false end.

Definition hour_is (h : option nat) (n : nat) : bool :=
  match h with Some k => k =? n | None => false end.

(** One iteration of the loop body: [None] when the pattern does not match
    or no branch returns, in which case the loop goes on. *)
Definition time_step (x : regex) (text : str) : option str :=
  match rsearch x text with
  | None => None
  | Some m =>
      let timeStr := m_whole m in
      let hour := parseInt (match group m 1 with Some g => g | None => [] end) in
      if includes timeStr (txt "morning") && hour_ge hour 1 && hour_le hour 12 then
        Some (hour_str hour ++ txt ":00 AM")
      else if includes timeStr (txt "afternoon") && hour_le hour 12 then
        let adjustedHour := if hour_is hour 12 then Some 12 else hour in
        Some (hour_str adjustedHour ++ txt ":00 PM")
      else if includes timeStr (txt "evening") && hour_le hour 12 then
        let adjustedHour := if hour_is hour 12 then Some 12 else hour in
        Some (hour_str adjustedHour ++ txt ":00 PM")
      else if includes timeStr (txt "night") && hour_le hour 12 then
        let adjustedHour := if hour_is hour 12 then Some 12 else hour in
        Some (hour_str adjustedHour ++ txt ":00 PM")
      else if rtest rx_ampm_suffix timeStr then
        let ampm := if includes (toUpperCase timeStr) (txt "AM") then txt "AM" else txt "PM" in
        Some (hour_str hour ++ txt ":00 " ++ ampm)
      else if includes timeStr (txt ":") then
        Some (m_whole m)
      else None
  end.

Fixpoint try_patterns (ps : list regex) (text : str) : option str :=
  match ps with
  | [] => None
  | x :: ps' => match time_step x text with
                | Some r => Some r
                | None => try_patterns ps' text
                end
  end.

Definition parseTimeFromText (text : str) : option str := try_patterns timePatterns text.

(** ** Busy detection ([isBusyRejection]) *)

Definition rx_raw_busy : regex := Regex (seqs [RWordB; lit "busy"; RWordB]) true.

Definition busy_negators : list string :=
  ["won't"; "will not"; "shouldn't"; "should not"; "can't"; "cannot"; "couldn't";
   "could not"; "wouldn't"; "would not"; "might not"; "isn't going to";
   "not going to"; "am not"; "are not"; "is not"; "not"]%string.

Definition rx_negated_busy : regex :=
  Regex (seqs [alts (map lit busy_negators); sp_plus;
               opt (seqs [lit "be"; sp_plus]); lit "busy"]) true.

Definition isBusyRejection (text : str) : bool :=
  if negb (rtest rx_raw_busy text) then false
  else if rtest rx_negated_busy text then false
  else true.

(** ** Accept / reject classification (inside [extractCollectedData]) *)

Definition c_comma_dot : cset := CSet false [(","%char, ","%char); ("."%char, "."%char)].
Definition c_comma_dot_sp : cset :=
  CSet false [(","%char, ","%char); ("."%char, "."%char); (chr 9, chr 13); (" "%char, " "%char)].

(** [\d{1,2}(?::\d{2})?\s?(?:am|pm|o'clock)] *)
Definition clock_time : re :=
  seqs [d12; opt (seqs [RChr ":"%char; two_digits]); sp_opt;
        alts [lit "am"; lit "pm"; lit "o'clock"]].

Definition rejectionPatterns : list regex :=
  [ Regex (alts [seqs [RBol; lit "no"; REol]; seqs [RBol; lit "no"; RCls c_comma_dot];
                 seqs [RBol; lit "no"; sp_plus; lit "that"];
                 seqs [RBol; lit "no"; sp_plus; lit "I"];
                 seqs [RBol; lit "no"; sp_plus; lit "it"]]) true;
    Regex (seqs [RWordB; lit "no"; plus c_comma_dot_sp; alts [lit "that"; lit "it"; lit "this"];
                 sp_plus; alts [lit "doesn't"; lit "won't"; lit "can't"; lit "isn't";
                                lit "doesn't"; lit "not"]]) true ] ++
  map (fun w => Regex (lit w) true)
    ["doesn't work"; "won't work"; "can't work"; "not available"; "not possible";
     "not happening"; "unavailable"; "isn't possible"; "isn't available"; "isn't good";
     "aren't available"; "inconvenient"; "doesn't suit"; "not suitable"; "not free";
     "not open"; "conflict"; "bad time"; "too early"; "too late"; "not good";
     "terrible"; "awful"; "impossible"; "out of the question"]%string ++
  [ Regex (seqs [RGrp 1 clock_time; sp_plus;
                 alts [lit "doesn't"; lit "won't"; lit "can't"; lit "isn't"; lit "not"]]) true;
    Regex (seqs [RGrp 1 clock_time; sp_plus; alts [lit "is"; seqs [lit "would"; sp_plus; lit "be"]];
                 sp_plus; alts [lit "bad"; lit "terrible"; lit "awful"; lit "impossible"]]) true ].

Definition acceptanceWords : list str :=
  map txt ["yes"; "that works"; "sounds good"; "perfect"; "great"; "sure"; "works for me";
           "let's do it"; "good"; "fine"; "okay"; "ok"; "that time is fine"; "excellent";
           "wonderful"]%string.

(** [hasRejection], on [userResponse = text.toLowerCase().trim()]. *)
Definition hasRejection (userResponse : str) : bool :=
  existsb (fun x => rtest x userResponse) rejectionPatterns || isBusyRejection userResponse.

Definition hasAcceptance (userResponse : str) : bool :=
  existsb (fun w => includes userResponse w) acceptanceWords.

(** [\d{1,2}(?::\d{2})?\s?(?:am|pm|o'clock|in the morning|...)] *)
Definition alt_time : re :=
  seqs [d12; opt (seqs [RChr ":"%char; two_digits]); sp_opt;
        alts [lit "am"; lit "pm"; lit "o'clock"; lit "in the morning";
              lit "in the afternoon"; lit "in the evening"]].

Definition alternativePatterns : list regex :=
  map (fun kw => Regex (seqs [lit kw; sp_plus; lazy_star c_dot; RGrp 1 alt_time]) true)
      ["but"; "maybe"; "how about"; "instead"; "prefer"]%string.

(** The [for ... break] loop over [alternativePatterns] (on the raw text). *)
Fixpoint find_alternative (ps : list regex) (text : str) : option str :=
  match ps with
  | [] => None
  | x :: ps' => match rsearch x text with
                | Some m => parseTimeFromText (match group m 1 with Some g => g | None => [] end)
                | None => find_alternative ps' text
                end
  end.

Definition negativeWords : list str :=
  map txt ["not"; "doesn't"; "won't"; "bad"; "terrible"; "awful"]%string.

(** ** Email reconstruction ([parseEmailFromVoiceText], [isValidEmail]) *)

(** The exceptions a turn can raise. *)
Inductive js_exn :=
| ETypeError (msg : str)
| EError (msg : str).

Definition c_local : cset :=
  CSet false [("a"%char, "z"%char); ("A"%char, "Z"%char); ("0"%char, "9"%char);
              ("."%char, "."%char); ("_"%char, "_"%char); ("%"%char, "%"%char);
              ("+"%char, "+"%char); ("-"%char, "-"%char)].
Definition c_domain : cset :=
  CSet false [("a"%char, "z"%char); ("A"%char, "Z"%char); ("0"%char, "9"%char);
              ("."%char, "."%char); ("-"%char, "-"%char)].

(** [[a-zA-Z0-9._%+-]+@[a-zA-Z0-9.-]+\.[a-zA-Z]{2,}] *)
Definition email_core : re :=
  seqs [plus c_local; RChr "@"%char; plus c_domain; RChr "."%char; atleast c_alpha 2].

Definition rx_direct_email : regex := Regex (RGrp 1 email_core) false.
Definition rx_email_anchored : regex := Regex (seqs [RBol; email_core; REol]) false.

Definition rx_prefix : regex :=
  Regex (seqs [RBol; RGrp 1 (alts [
           seqs [lit "my"; sp_plus; lit "email"; sp_plus;
                 opt (RGrp 2 (seqs [lit "address"; sp_plus])); lit "is"; sp_plus];
           seqs [lit "email"; sp_plus; lit "is"; sp_plus];
           seqs [lit "it"; qm (CSet false [("'"%char, "'"%char)]); lit "s"; sp_plus];
           seqs [lit "the"; sp_plus; lit "email"; sp_plus; lit "is"; sp_plus]])]) true.

Definition spoken (w : re) : regex := Regex (seqs [sp_plus; w; sp_plus]) true.

Definition rx_at_the_rate : regex :=
  spoken (seqs [lit "at"; sp_plus; lit "the"; sp_plus; lit "rate"]).
Definition rx_at : regex := spoken (lit "at").
Definition rx_dot : regex := spoken (lit "dot").
Definition rx_period : regex := spoken (lit "period").
Definition rx_underscore : regex := spoken (lit "underscore").
Definition rx_dash : regex := spoken (RGrp 1 (alts [lit "dash"; lit "hyphen"])).
Definition rx_filler : regex :=
  spoken (RGrp 1 (alts (map lit ["the"; "a"; "an"; "and"; "or"; "to"; "of"; "in"; "on";
                                 "for"]%string))).
Definition rx_spaces : regex := Regex sp_plus false.
Definition rx_not_local : regex :=
  Regex (RCls (CSet true [("a"%char, "z"%char); ("0"%char, "9"%char); ("."%char, "."%char);
                          ("_"%char, "_"%char); ("-"%char, "-"%char)])) false.
Definition rx_not_domain : regex :=
  Regex (RCls (CSet true [("a"%char, "z"%char); ("0"%char, "9"%char); ("."%char, "."%char);
                          ("-"%char, "-"%char)])) false.

Fixpoint last_elem {A} (l : list A) : option A :=
  match l with
  | [] => None
  | [x] => Some x
  | _ :: t => last_elem t
  end.

Definition isValidEmail (email : str) : bool :=
  if negb (rtest rx_email_anchored email) then false
  else match split_on "@"%char email with
       | localPart :: rest =>
           if length localPart <? 1 then false
           else match rest with
                | domainPart :: _ =>
                    if negb (includes domainPart (txt ".")) then false
                    else match last_elem (split_on "."%char domainPart) with
                         | Some tld => 2 <=? length tld
                         | None => false
                         end
                | [] => false
                end
       | [] => false
       end.

(** [domainMap] is a plain object literal, so [domainMap[domain]] also finds
    the members of [Object.prototype]; the two whose names are lower case
    (the domain has been lower-cased) are [constructor] (a function) and
    [__proto__] (an object). *)
Inductive dom_val :=
| DStr (s : str)
| DProto (name : str).

Definition domainMap : list (str * str) :=
  map (fun '(k, v) => (txt k, txt v))
    [("gmail", "gmail.com"); ("geemail", "gmail.com"); ("g mail", "gmail.com");
     ("yahoo", "yahoo.com"); ("ya hoo", "yahoo.com"); ("outlook", "outlook.com");
     ("hotmail", "hotmail.com"); ("hot mail", "hotmail.com"); ("icloud", "icloud.com");
     ("i cloud", "icloud.com"); ("protonmail", "protonmail.com");
     ("proton mail", "protonmail.com")]%string.

Definition domainMap_get (k : str) : option dom_val :=
  match find (fun e => str_eqb (fst e) k) domainMap with
  | Some (_, v) => Some (DStr v)
  | None => if str_eqb k (txt "constructor") || str_eqb k (txt "__proto__")
            then Some (DProto k) else None
  end.

Definition knownDomains : list str :=
  map txt ["gmail"; "yahoo"; "outlook"; "hotmail"; "icloud"]%string.

(** Steps 7 (after the map lookup) to 9, once [domain] is a string. *)
Definition finish_email (username domain : str) : option str :=
  let domain :=
    if negb (includes domain (txt ".")) then
      if existsb (fun d => prefixb d domain) knownDomains then domain ++ txt ".com" else domain
    else domain in
  let domain := rreplace_all rx_not_domain domain [] in
  if length username =? 0 then None
  else if negb (includes domain (txt ".")) then None
  else let email := username ++ txt "@" ++ domain in
       if isValidEmail email then Some email else None.

(** The spoken-delimiter substitution of step 3. *)
Definition email_text (normalized : str) : str :=
  let e := rreplace_all rx_at_the_rate normalized (txt " @ ") in
  let e := rreplace_all rx_at e (txt " @ ") in
  let e := rreplace_all rx_dot e (txt ".") in
  let e := rreplace_all rx_period e (txt ".") in
  let e := rreplace_all rx_underscore e (txt "_") in
  rreplace_all rx_dash e (txt "-").

(** [inl] is a thrown exception; [inr None] is [return null]. *)
Definition parseEmailFromVoiceText (text : str) : js_exn + option str :=
  let normalized := trim (toLowerCase text) in
  match rsearch rx_direct_email normalized with
  | Some m => inr (Some (toLowerCase (match group m 1 with Some g => g | None => [] end)))
  | None =>
      let normalized := rreplace rx_prefix normalized [] in
      let emailText := email_text normalized in
      if negb (includes emailText (txt "@")) then inr None
      else match split_on "@"%char emailText with
           | [usernamePart; domainPart] =>
               let username := trim usernamePart in
               let username := rreplace_all rx_filler username [] in
               let username := rreplace_all rx_spaces username [] in
               let username := rreplace_all rx_not_local username [] in
               let domain := trim domainPart in
               let domain := rreplace_all rx_spaces domain [] in
               match domainMap_get domain with
               | Some (DProto _) =>
                   (* [domain.includes('.')] on a non-string *)
                   inl (ETypeError (txt "domain.includes is not a function"))
               | Some (DStr d) => inr (finish_email username d)
               | None => inr (finish_email username domain)
               end
           | _ => inr None
           end
  end.

(** ** [JSON.parse] *)

#[warnings="-register-all"]
Inductive json :=
| JNull
| JBool (b : bool)
| JNum (lexeme : str)
| JStr (s : str)
| JArr (l : list json)
| JObj (l : list (str * json)).

Definition is_jws (c : ascii) : bool :=
  let n := nat_of_ascii c in (n =? 32) || (n =? 9) || (n =? 10) || (n =? 13).

Fixpoint skip_jws (s : str) : str :=
  match s with
  | c :: t => if is_jws c then skip_jws t else s
  | [] => []
  end.

Definition hex_val (c : ascii) : option nat :=
  let n := nat_of_ascii c in
  if (48 <=? n) && (n <=? 57) then Some (n - 48)
  else if (97 <=? n) && (n <=? 102) then Some (n - 87)
  else if (65 <=? n) && (n <=? 70) then Some (n - 55)
  else None.

Definition simple_escape (e : ascii) : option ascii :=
  let n := nat_of_ascii e in
  if (n =? 34) || (n =? 92) || (n =? 47) then Some e
  else if n =? 98 then Some (chr 8)
  else if n =? 102 then Some (chr 12)
  else if n =? 110 then Some (chr 10)
  else if n =? 114 then Some (chr 13)
  else if n =? 116 then Some (chr 9)
  else None.

(** [s] with its first character removed when that character is [c]. *)
Definition after (c : ascii) (s : str) : option str :=
  match s with
  | x :: t => if ascii_eqb x c then Some t else None
  | [] => None
  end.

(** String body after the opening quote.  Text is modelled as one 8-bit
    character per code point, so [\uXXXX] is decoded for the codes below
    256 (the characters the model can hold, the same ones it accepts raw);
    a code of 256 or more denotes a character outside that range. *)
Fixpoint parse_string_body (s acc : str) : option (str * str) :=
  match s with
  | [] => None
  | c :: t =>
      if nat_of_ascii c =? 34 then Some (rev acc, t)
      else if nat_of_ascii c =? 92 then
        match t with
        | e :: t' =>
            match simple_escape e with
            | Some x => parse_string_body t' (x :: acc)
            | None =>
                if negb (ascii_eqb e "u"%char) then None else
                match t' with
                | h1 :: h2 :: h3 :: h4 :: t'' =>
                    match hex_val h1, hex_val h2, hex_val h3, hex_val h4 with
                    | Some a, Some b, Some c', Some d =>
                        let code := ((a * 16 + b) * 16 + c') * 16 + d in
                        if code <? 256 then parse_string_body t'' (chr code :: acc) else None
                    | _, _, _, _ => None
                    end
                | _ => None
                end
            end
        | [] => None
        end
      else if nat_of_ascii c <? 32 then None
      else parse_string_body t (c :: acc)
  end.

Fixpoint take_digits (s : str) : str * str :=
  match s with
  | c :: t => if is_digit c then let '(d, r) := take_digits t in (c :: d, r) else ([], s)
  | [] => ([], [])
  end.

Definition digits1 (s : str) : option (str * str) :=
  match take_digits s with
  | ([], _) => None
  | dr => Some dr
  end.

(** A JSON number: optional minus, integer part ([0] or a non-zero digit
    and more digits), optional fraction, optional exponent; returned as its
    lexeme. *)
Definition parse_number (s : str) : option (str * str) :=
  let '(sg, s1) := match after "-"%char s with
                   | Some t => (["-"%char], t)
                   | None => ([], s)
                   end in
  let int_part :=
    match after "0"%char s1 with
    | Some t => Some (["0"%char], t)
    | None => digits1 s1
    end in
  match int_part with
  | None => None
  | Some (ip, s2) =>
      let frac :=
        match after "."%char s2 with
        | Some t => option_map (fun '(d, r) => ("."%char :: d, r)) (digits1 t)
        | None => Some ([], s2)
        end in
      match frac with
      | None => None
      | Some (fp, s3) =>
          let expo :=
            match s3 with
            | e :: t =>
                if ascii_eqb e "e"%char || ascii_eqb e "E"%char then
                  let '(sgn, t1) := match t with
                                    | x :: t' => if ascii_eqb x "+"%char || ascii_eqb x "-"%char
                                                 then ([x], t') else ([], t)
                                    | [] => ([], t)
                                    end in
                  option_map (fun '(d, r) => (e :: sgn ++ d, r)) (digits1 t1)
                else Some ([], s3)
            | [] => Some ([], s3)
            end in
          match expo with
          | None => None
          | Some (xp, s4) => Some (sg ++ ip ++ fp ++ xp, s4)
          end
      end
  end.

Fixpoint parse_value (fuel : nat) (s : str) {struct fuel} : option (json * str) :=
  match fuel with
  | 0 => None
  | S f =>
      let s0 := skip_jws s in
      match s0 with
      | [] => None
      | c :: t =>
          if ascii_eqb c "{"%char then
            match after "}"%char (skip_jws t) with
            | Some t' => Some (JObj [], t')
            | None => parse_members f t []
            end
          else if ascii_eqb c "["%char then
            match after "]"%char (skip_jws t) with
            | Some t' => Some (JArr [], t')
            | None => parse_elements f t []
            end
          else if nat_of_ascii c =? 34 then
            option_map (fun '(x, r) => (JStr x, r)) (parse_string_body t [])
          else if prefixb (txt "true") s0 then Some (JBool true, skipn 4 s0)
          else if prefixb (txt "false") s0 then Some (JBool false, skipn 5 s0)
          else if prefixb (txt "null") s0 then Some (JNull, skipn 4 s0)
          else option_map (fun '(x, r) => (JNum x, r)) (parse_number s0)
      end
  end
with parse_members (fuel : nat) (s : str) (acc : list (str * json)) {struct fuel}
  : option (json * str) :=
  match fuel with
  | 0 => None
  | S f =>
      match skip_jws s with
      | q :: t =>
          if negb (nat_of_ascii q =? 34) then None else
          match parse_string_body t [] with
          | Some (k, t1) =>
              match after ":"%char (skip_jws t1) with
              | Some t2 =>
                  match parse_value f t2 with
                  | Some (v, t3) =>
                      let t3' := skip_jws t3 in
                      match after ","%char t3', after "}"%char t3' with
                      | Some t4, _ => parse_members f t4 ((k, v) :: acc)
                      | None, Some t4 => Some (JObj (rev ((k, v) :: acc)), t4)
                      | None, None => None
                      end
                  | None => None
                  end
              | None => None
              end
          | None => None
          end
      | [] => None
      end
  end
with parse_elements (fuel : nat) (s : str) (acc : list json) {struct fuel}
  : option (json * str) :=
  match fuel with
  | 0 => None
  | S f =>
      match parse_value f s with
      | Some (v, t1) =>
          let t1' := skip_jws t1 in
          match after ","%char t1', after "]"%char t1' with
          | Some t2, _ => parse_elements f t2 (v :: acc)
          | None, Some t2 => Some (JArr (rev (v :: acc)), t2)
          | None, None => None
          end
      | None => None
      end
  end.

(** [JSON.parse(text)]: [None] is a thrown [SyntaxError].  Each nested call
    consumes input or is followed by one that does, so the fuel
    [2 * length + 2] is never exhausted. *)
Definition JSON_parse (text : str) : option json :=
  match parse_value (2 * length text + 2) text with
  | Some (v, r) => match skip_jws r with [] => Some v | _ => None end
  | None => None
  end.

(** Property read on a parsed value; duplicate keys keep the last one, as
    [JSON.parse] does.  [None] is [undefined]. *)
Definition obj_get (v : json) (k : str) : option json :=
  match v with
  | JObj kvs => option_map snd (find (fun e => str_eqb (fst e) k) (rev kvs))
  | _ => None
  end.

(** Decimal value of a digit string, read after [acc]. *)
Fixpoint digits_value (acc : Z) (s : str) : Z :=
  match s with
  | [] => acc
  | c :: t => digits_value (acc * 10 + Z.of_nat (nat_of_ascii c - 48))%Z t
  end.

(** The parts of a number lexeme (as produced by [parse_number]): the
    digits of the integer and fraction parts, the number of fraction
    digits, and the exponent. *)
Definition num_parts (l : str) : str * nat * Z :=
  let l1 := match after "-"%char l with Some t => t | None => l end in
  let '(ip, r1) := take_digits l1 in
  let '(fp, r2) := match after "."%char r1 with
                   | Some t => take_digits t
                   | None => ([], r1)
                   end in
  let x := match r2 with
           | _ :: t =>
               match t with
               | sg :: t' =>
                   if ascii_eqb sg "-"%char then (- digits_value 0 (fst (take_digits t')))%Z
                   else if ascii_eqb sg "+"%char then digits_value 0 (fst (take_digits t'))
                   else digits_value 0 (fst (take_digits t))
               | [] => 0%Z
               end
           | [] => 0%Z
           end in
  (ip ++ fp, length fp, x).

(** The lexeme reads as the number [0] (or [-0]): its digits are all zero,
    or its value [M / 10^k] rounds to zero in binary64, i.e. is at most
    half the least subnormal, [2^-1075] (the tie goes to the even [0]). *)
Definition num_is_zero (l : str) : bool :=
  let '(m, f, x) := num_parts l in
  let M := digits_value 0 m in
  let k := (Z.of_nat f - x)%Z in
  (M =? 0)%Z || ((0 <? k)%Z && (M * 2 ^ 1075 <=? 10 ^ k)%Z).

(** JavaScript truthiness of a parsed value. *)
Definition truthy_json (v : json) : bool :=
  match v with
  | JNull => false
  | JBool b => b
  | JNum l => negb (num_is_zero l)
  | JStr s => match s with [] => false | _ => true end
  | JArr _ | JObj _ => true
  end.

(** ** [parseLLMResponse] *)

Record llm_reply := LLMReply {
  replyText : json;
  askFor : option json;   (* [None] is [undefined] *)
  readyToBook : bool }.

Definition repeat_reply : str :=
  txt "I'm having trouble processing that. Could you please repeat?".

Definition fallbackResponse (assistantMessage : str) : llm_reply :=
  LLMReply (JStr (if includes assistantMessage (txt "{") then repeat_reply else assistantMessage))
           (Some JNull) false.

(** The [try] block: [JSON.parse], then the [replyText] check (a [null]
    result makes the property read itself throw, which the same [catch]
    handles), then the [readyToBook] default. *)
Definition parseLLMResponse (assistantMessage : str) : llm_reply :=
  match JSON_parse assistantMessage with
  | Some v =>
      match v, obj_get v (txt "replyText") with
      | JNull, _ => fallbackResponse assistantMessage
      | _, Some rt =>
          if truthy_json rt then
            LLMReply rt (obj_get v (txt "askFor"))
                     (match obj_get v (txt "readyToBook") with
                      | Some (JBool b) => b
                      | _ => false
                      end)
          else fallbackResponse assistantMessage
      | _, None => fallbackResponse assistantMessage
      end
  | None => fallbackResponse assistantMessage
  end.

(** [parsedResponse.askFor === s]. *)
Definition askFor_is (a : option json) (s : string) : bool :=
  match a with
  | Some (JStr x) => str_eqb x (txt s)
  | _ => false
  end.

(** ** Sessions *)

Record collected := Collected {
  name : option str;
  email : option str;
  meetingPreference : option str;
  userPreferredTime : option str;
  rejectedSlots : list str;
  lastSuggestedSlot : option str }.

Inductive role := RSystem | RUser | RAssistant.

Record message := Msg { role_of : role; content : str }.

(** [lastUpdated] is left out: it is written with [new Date()] and never
    read. *)
Record session := Session {
  sessionId : str;
  messages : list message;
  collectedData : collected }.

Definition set_name (c : collected) (v : option str) : collected :=
  Collected v (email c) (meetingPreference c) (userPreferredTime c) (rejectedSlots c)
            (lastSuggestedSlot c).
Definition set_email (c : collected) (v : option str) : collected :=
  Collected (name c) v (meetingPreference c) (userPreferredTime c) (rejectedSlots c)
            (lastSuggestedSlot c).
Definition set_meetingPreference (c : collected) (v : option str) : collected :=
  Collected (name c) (email c) v (userPreferredTime c) (rejectedSlots c)
            (lastSuggestedSlot c).
Definition set_userPreferredTime (c : collected) (v : option str) : collected :=
  Collected (name c) (email c) (meetingPreference c) v (rejectedSlots c)
            (lastSuggestedSlot c).
Definition set_rejectedSlots (c : collected) (v : list str) : collected :=
  Collected (name c) (email c) (meetingPreference c) (userPreferredTime c) v
            (lastSuggestedSlot c).
Definition set_lastSuggestedSlot (c : collected) (v : option str) : collected :=
  Collected (name c) (email c) (meetingPreference c) (userPreferredTime c) (rejectedSlots c) v.

(** JavaScript truthiness of an optional string field. *)
Definition truthy (o : option str) : bool :=
  match o with
  | Some (_ :: _) => true
  | _ => false
  end.

Definition is_blank (s : str) : bool :=
  match trim s with [] => true | _ => false end.

(** [arr.includes(x)] on a string array. *)
Definition mem_str (x : str) (l : list str) : bool := existsb (str_eqb x) l.

(** [VOICE_AGENT_SYSTEM_PROMPT] (its opening line; no code reads the text). *)
Definition VOICE_AGENT_SYSTEM_PROMPT : str :=
  txt "You are SleeckOS Agent, a polite and helpful voice booking assistant.".

(** The process-wide [sessions] map, in insertion order. *)
Definition store := list (str * session).

Fixpoint store_get (st : store) (k : str) : option session :=
  match st with
  | [] => None
  | (k', v) :: t => if str_eqb k' k then Some v else store_get t k
  end.

Fixpoint store_set (st : store) (k : str) (v : session) : store :=
  match st with
  | [] => [(k, v)]
  | (k', v') :: t => if str_eqb k' k then (k', v) :: t else (k', v') :: store_set t k v
  end.

Definition empty_collected : collected := Collected None None None None [] None.

Definition new_session (sid : str) : session :=
  Session sid [Msg RSystem VOICE_AGENT_SYSTEM_PROMPT] empty_collected.

Definition getOrCreateSession (st : store) (sid : str) : store * session :=
  match store_get st sid with
  | Some s => (st, s)
  | None => let s := new_session sid in (store_set st sid s, s)
  end.

Definition addUserMessage (s : session) (text : str) (final : bool) : session :=
  if final && negb (is_blank text)
  then Session (sessionId s) (messages s ++ [Msg RUser text]) (collectedData s)
  else s.

Definition with_data (s : session) (c : collected) : session :=
  Session (sessionId s) (messages s) c.

Fixpoint join (sep : str) (l : list str) : str :=
  match l with
  | [] => []
  | [x] => x
  | x :: t => x ++ sep ++ join sep t
  end.

(** [addTimeSlotContext]: [availableSlots] is the value of
    [storage.getAvailableTimeSlots(tomorrow)] and [rnd] the value of
    [Math.floor(Math.random() * nonRejectedSlots.length)].  Returns the
    session (with [lastSuggestedSlot] possibly set) and [messagesWithContext]. *)
Definition addTimeSlotContext (s : session) (ctx : list message)
    (availableSlots : list str) (rnd : nat) : session * list message :=
  let cd := collectedData s in
  if truthy (name cd) && truthy (email cd) && negb (truthy (meetingPreference cd))
     && negb (truthy (userPreferredTime cd)) then
    let rejected := rejectedSlots cd in
    let nonRejectedSlots := filter (fun slot => negb (mem_str slot rejected)) availableSlots in
    match nonRejectedSlots with
    | [] =>
        (s, ctx ++ [Msg RSystem (txt "No more available slots. Ask the user what time they prefer for tomorrow and note that you'll check availability.")])
    | _ =>
        if 2 <=? length rejected then
          (s, ctx ++ [Msg RSystem (txt "User has rejected multiple suggestions. Ask them what time they prefer for tomorrow. Available slots are: "
                                   ++ join (txt ", ") nonRejectedSlots ++ txt ".")])
        else
          let randomSlot := nth_error nonRejectedSlots rnd in
          (with_data s (set_lastSuggestedSlot cd randomSlot),
           ctx ++ [Msg RSystem (txt "Suggest this specific time slot: "
                                ++ match randomSlot with Some x => x | None => txt "undefined" end
                                ++ txt ". Ask if this time works for them.")])
    end
  else (s, ctx).

(** ** [extractCollectedData] *)

Definition rx_name : regex :=
  Regex (seqs [alts [lit "my name is "; lit "i'm "; lit "i am "; lit "call me "];
               RGrp 1 (plus (CSet false [("a"%char, "z"%char); ("A"%char, "Z"%char);
                                         (chr 9, chr 13); (" "%char, " "%char)]))]) true.

(** The meeting-preference branch (email set, [meetingPreference] unset). *)
Definition classify_reply (cd : collected) (text : str) : collected :=
  let userResponse := trim (toLowerCase text) in
  let hasRej := hasRejection userResponse in
  let hasAcc := hasAcceptance userResponse in
  let parsedTime := parseTimeFromText text in
  if hasRej then
    let rejected :=
      match lastSuggestedSlot cd with
      | Some l => if truthy (Some l) && negb (mem_str l (rejectedSlots cd))
                  then rejectedSlots cd ++ [l] else rejectedSlots cd
      | None => rejectedSlots cd
      end in
    let cd1 := set_lastSuggestedSlot (set_rejectedSlots cd rejected) None in
    let alternativeTime := find_alternative alternativePatterns text in
    if truthy alternativeTime then set_meetingPreference cd1 alternativeTime else cd1
  else if hasAcc && negb hasRej then
    if truthy (lastSuggestedSlot cd) then set_meetingPreference cd (lastSuggestedSlot cd)
    else cd
  else if truthy parsedTime && negb hasRej then
    let pt := match parsedTime with Some p => p | None => [] end in
    let i := index_of text (toLowerCase pt) in
    let timeContext := substring text (Z.max 0 (i - 20)) (i + Z.of_nat (length pt) + 20) in
    let negativeContext := existsb (fun w => includes timeContext w) negativeWords in
    if negb negativeContext then set_meetingPreference cd parsedTime else cd
  else cd.

(** [inl] is an exception thrown out of the function (the mutations made
    before it persist; here none are made before the throwing call). *)
Definition extractCollectedData (cd : collected) (text : str) (parsed : llm_reply)
  : js_exn + collected :=
  if is_blank text then inr cd else
  let af := askFor parsed in
  let step :=
    if askFor_is af "email" && negb (truthy (name cd)) then
      inr (set_name cd (Some (match rsearch rx_name text with
                              | Some m => trim (match group m 1 with Some g => g | None => [] end)
                              | None => trim text
                              end)))
    else if (askFor_is af "meeting_preference" || askFor_is af "email")
            && negb (truthy (email cd)) then
      match parseEmailFromVoiceText text with
      | inl e => inl e
      | inr extractedEmail =>
          if truthy extractedEmail
             && isValidEmail (match extractedEmail with Some e => e | None => [] end)
          then inr (set_email cd extractedEmail) else inr cd
      end
    else if truthy (email cd) && negb (truthy (meetingPreference cd)) then
      inr (classify_reply cd text)
    else if (askFor_is af "user_preferred_time" || askFor_is af "confirmation")
            && negb (truthy (meetingPreference cd)) then
      let parsedTime := parseTimeFromText text in
      if truthy parsedTime
      then inr (set_meetingPreference (set_userPreferredTime cd parsedTime) parsedTime)
      else inr cd
    else inr cd in
  match step with
  | inl e => inl e
  | inr cd' =>
      inr (if askFor_is af "confirmation" && truthy (lastSuggestedSlot cd')
              && negb (truthy (meetingPreference cd'))
           then set_meetingPreference cd' (lastSuggestedSlot cd') else cd')
  end.

(** ** LLM gateway ([createChatCompletion]) *)

(** Request parameters; the temperature [0.7] is kept as the fraction
    [(7, 10)]. *)
Record params := Params {
  p_model : str;
  p_messages : list message;
  p_temperature : nat * nat;
  p_max_tokens : nat;
  p_response_format : str }.

(** What one provider call does: it throws, or resolves to a completion
    whose [choices[0]?.message?.content] is given ([None]: undefined/null). *)
Inductive provider_result :=
| PThrow
| PReturn (content : option str).

Definition with_model (model : str) (messages : list message) : params :=
  Params model messages (7, 10) 200 (txt "json_object").

(** Returns the calls made, in order, and either the thrown error or
    [{content, provider}]. *)
Definition createChatCompletion (groq openai : params -> provider_result)
    (messages : list message) : list params * (js_exn + (option str * str)) :=
  let gp := with_model (txt "llama-3.1-8b-instant") messages in
  match groq gp with
  | PReturn c => ([gp], inr (c, txt "groq"))
  | PThrow =>
      let op := with_model (txt "gpt-4o-mini") messages in
      match openai op with
      | PReturn c => ([gp; op], inr (c, txt "openai"))
      | PThrow => ([gp; op], inl (EError (txt "Both LLM providers failed")))
      end
  end.

(** ** One turn ([processVoiceAgentRequest]) *)

Record request := Request { req_sessionId : str; req_text : str; req_final : bool }.

(** The collaborators of a turn: the slot list returned by the storage, the
    random index, the two providers, [ELEVENLABS_API_KEY], and the result of
    [generateTTS] on a non-empty string text once the key check has passed
    (the cache lookup and the ElevenLabs request, whose errors
    [generateTTSInternal] catches). *)
Record env := Env {
  env_slots : list str;
  env_rand : nat;
  env_groq : params -> provider_result;
  env_openai : params -> provider_result;
  env_ttsKey : option str;
  env_tts : str -> option str }.

(** [await generateTTS(parsedResponse.replyText)].  [!text ||
    !ELEVENLABS_API_KEY] returns [undefined]; a string text goes on to the
    cache and the request; any other truthy value misses the cache (whose
    keys are strings) and reaches [text.substring(0, 50)], outside any
    [try], which throws. *)
Definition tts_step (ev : env) (text : json) : js_exn + option str :=
  if negb (truthy_json text) || negb (truthy (env_ttsKey ev)) then inr None
  else match text with
       | JStr s => inr (env_tts ev s)
       | _ => inl (ETypeError (txt "text.substring is not a function"))
       end.

Record response := Response {
  r_replyText : json;
  r_askFor : option json;
  r_readyToBook : bool;
  r_collectedData : collected;
  r_sessionId : str;
  r_audioUrl : option str }.

(** The session is mutated in place, so every change made before a throw is
    visible in the returned store.  Returns the store, the provider calls
    and the result or the thrown error. *)
Definition processVoiceAgentRequest (st : store) (rq : request) (ev : env)
  : store * list params * (js_exn + response) :=
  let sid := req_sessionId rq in
  let text := req_text rq in
  let '(st1, s0) := getOrCreateSession st sid in
  let s1 := addUserMessage s0 text (req_final rq) in
  let '(s2, messagesWithContext) :=
    addTimeSlotContext s1 (messages s1) (env_slots ev) (env_rand ev) in
  let st2 := store_set st1 sid s2 in
  let '(calls, llm) := createChatCompletion (env_groq ev) (env_openai ev) messagesWithContext in
  match llm with
  | inl e => (st2, calls, inl e)
  | inr (c, provider) =>
      if negb (truthy c) then
        (st2, calls, inl (EError (txt "No response from LLM provider (" ++ provider ++ txt ")")))
      else
        let content := match c with Some x => x | None => [] end in
        let parsedResponse := parseLLMResponse content in
        match extractCollectedData (collectedData s2) text parsedResponse with
        | inl e => (st2, calls, inl e)
        | inr cd =>
            let s3 := Session (sessionId s2) (messages s2 ++ [Msg RAssistant content]) cd in
            let st3 := store_set st2 sid s3 in
            match tts_step ev (replyText parsedResponse) with
            | inl e => (st3, calls, inl e)
            | inr audioUrl =>
                (st3, calls, inr (Response (replyText parsedResponse) (askFor parsedResponse)
                                           (readyToBook parsedResponse) cd (sessionId s2) audioUrl))
            end
        end
  end.

(** A sequence of turns; the list holds the store after each turn. *)
Fixpoint run_turns (st : store) (turns : list (request * env)) : list store :=
  match turns with
  | [] => []
  | (rq, ev) :: rest =>
      let '(st', _, _) := processVoiceAgentRequest st rq ev in st' :: run_turns st' rest
  end.

(** ** Slot calendar ([MemStorage.getAvailableTimeSlots]) *)

(** A local date-time: a day number and the milliseconds since local
    midnight (no daylight-saving shift is modelled). *)
Record datetime := DT { dt_day : Z; dt_ms : Z }.

Record booking := Booking {
  b_id : str; b_name : str; b_email : str; b_meetingTime : datetime; b_bookingTime : datetime }.

Definition dt_le (a b : datetime) : bool :=
  (dt_day a <? dt_day b)%Z || ((dt_day a =? dt_day b)%Z && (dt_ms a <=? dt_ms b)%Z).

(** [getBookingsByDate]: bookings between [setHours(0,0,0,0)] and
    [setHours(23,59,59,999)] of the given day. *)
Definition getBookingsByDate (bookings : list booking) (date : datetime) : list booking :=
  let startOfDay := DT (dt_day date) 0 in
  let endOfDay := DT (dt_day date) 86399999 in
  filter (fun b => dt_le startOfDay (b_meetingTime b) && dt_le (b_meetingTime b) endOfDay)
         bookings.

(** [padStart(2, '0')] of a decimal rendering. *)
Definition pad2 (n : nat) : str :=
  let s := nat_str n in if length s <? 2 then "0"%char :: s else s.

Definition dt_hour (t : datetime) : nat := Z.to_nat (dt_ms t / 3600000).
Definition dt_minute (t : datetime) : nat := Z.to_nat ((dt_ms t / 60000) mod 60).

(** [toLocaleTimeString('en-US', {hour: '2-digit', minute: '2-digit',
    hour12: false})]. *)
Definition time_hhmm (t : datetime) : str := pad2 (dt_hour t) ++ txt ":" ++ pad2 (dt_minute t).

(** [toLocaleTimeString('en-US', {hour: 'numeric', minute: '2-digit',
    hour12: true})], e.g. [9:00 AM]. *)
Definition display_label (hour minute : nat) : str :=
  let h12 := if hour mod 12 =? 0 then 12 else hour mod 12 in
  nat_str h12 ++ txt ":" ++ pad2 minute ++ txt " " ++ (if hour <? 12 then txt "AM" else txt "PM").

(** The inner loop [for (minute = 0; minute < 60; minute += 30)]. *)
Definition slot_minutes : list nat := [0; 30].

(** The outer loop [for (hour = 9; hour < 18; hour++)]. *)
Definition slot_hours : list nat := seq 9 9.

Definition getAvailableTimeSlots (bookings : list booking) (date : datetime) : list str :=
  let bookedTimes := map (fun b => time_hhmm (b_meetingTime b)) (getBookingsByDate bookings date) in
  flat_map (fun hour =>
    flat_map (fun minute =>
      let timeString := pad2 hour ++ txt ":" ++ pad2 minute in
      if negb (mem_str timeString bookedTimes) then [display_label hour minute] else [])
      slot_minutes)
    slot_hours.

(** ** Maps with string keys ([Map<string, V>]) *)

(** A JavaScript [Map] in insertion order: [set] on a present key replaces
    the value in place, on a new key appends the entry. *)
Fixpoint map_get {V : Type} (m : list (str * V)) (k : str) : option V :=
  match m with
  | [] => None
  | (k', v) :: t => if str_eqb k' k then Some v else map_get t k
  end.

Fixpoint map_set {V : Type} (m : list (str * V)) (k : str) (v : V) : list (str * V) :=
  match m with
  | [] => [(k, v)]
  | (k', v') :: t => if str_eqb k' k then (k', v) :: t else (k', v') :: map_set t k v
  end.

(** ** Text-to-speech cache ([TTS_CACHE], [generateTTSInternal],
    [generateTTS], [preGenerateTTSCache]) *)

(** [Buffer.from(audio).toString('base64')]: every group of three bytes
    gives four characters, a final partial group is padded with [=]. *)
Definition b64_alphabet : str :=
  txt "ABCDEFGHIJKLMNOPQRSTUVWXYZabcdefghijklmnopqrstuvwxyz0123456789+/".

Definition b64_char (n : Z) : ascii := nth (Z.to_nat n) b64_alphabet "="%char.

Definition b64_sextet (n k : Z) : ascii := b64_char (Z.land (Z.shiftr n k) 63).

Definition bval (b : Byte.byte) : Z := Z.of_nat (Byte.to_nat b).

Fixpoint base64 (bs : list Byte.byte) : str :=
  match bs with
  | a :: b :: c :: t =>
      let n := Z.lor (Z.shiftl (bval a) 16) (Z.lor (Z.shiftl (bval b) 8) (bval c)) in
      [b64_sextet n 18; b64_sextet n 12; b64_sextet n 6; b64_sextet n 0] ++ base64 t
  | [a; b] =>
      let n := Z.lor (Z.shiftl (bval a) 16) (Z.shiftl (bval b) 8) in
      [b64_sextet n 18; b64_sextet n 12; b64_sextet n 6; "="%char]
  | [a] =>
      let n := Z.shiftl (bval a) 16 in
      [b64_sextet n 18; b64_sextet n 12; "="%char; "="%char]
  | [] => []
  end.

(** [TTSCacheEntry]; [generatedAt] is written but never read. *)
Record tts_entry := TTSEntry { e_text : str; e_audioUrl : str; e_hits : nat }.

Definition tts_cache := list (str * tts_entry).

(** The ElevenLabs request for a text: [Some audio] when the response is
    ok (its body), [None] when it is not ok or [fetch] throws. *)
Definition tts_fetch := str -> option (list Byte.byte).

(** [generateTTSInternal]; the key is [ELEVENLABS_API_KEY].  Returns the
    texts sent to ElevenLabs and the result.  Both failures are caught and
    give [undefined]. *)
Definition generateTTSInternal (apiKey : option str) (fetch : tts_fetch) (text : str)
  : list str * option str :=
  if negb (truthy (Some text)) || negb (truthy apiKey) then ([], None)
  else ([text], match fetch text with
                | Some audio => Some (txt "data:audio/mpeg;base64," ++ base64 audio)
                | None => None
                end).

(** [generateTTS]: the cache entry is mutated in place on a hit
    ([cached.hits++]). *)
Definition generateTTS (apiKey : option str) (fetch : tts_fetch) (cache : tts_cache)
    (text : str) : tts_cache * list str * option str :=
  if negb (truthy (Some text)) || negb (truthy apiKey) then (cache, [], None)
  else match map_get cache text with
       | Some cached =>
           (map_set cache text (TTSEntry (e_text cached) (e_audioUrl cached) (S (e_hits cached))),
            [], Some (e_audioUrl cached))
       | None =>
           let '(calls, audioUrl) := generateTTSInternal apiKey fetch text in
           match audioUrl with
           | Some u =>
               ((if length text <? 200 then map_set cache text (TTSEntry text u 0) else cache),
                calls, audioUrl)
           | None => (cache, calls, audioUrl)
           end
       end.

(** A sequence of [generateTTS] calls, each with the network's answer at
    that time; returns the final cache and all texts sent. *)
Fixpoint run_tts (apiKey : option str) (cache : tts_cache) (calls : list (tts_fetch * str))
  : tts_cache * list str :=
  match calls with
  | [] => (cache, [])
  | (fetch, text) :: rest =>
      let '(cache', sent, _) := generateTTS apiKey fetch cache text in
      let '(cache'', sent') := run_tts apiKey cache' rest in
      (cache'', sent ++ sent')
  end.

Definition CACHEABLE_PHRASES : list str := map txt [
  "Hello! I'm SleeckOS Agent. I'll help you book a call. May I have your name please?";
  "Great! And what's your email address?";
  "Thank you! And what's your email address?";
  "Perfect! What's your email address?";
  "Please TYPE your email address in the text field below for accuracy.";
  "If you prefer to speak it, say it SLOWLY and CLEARLY like: john at gmail dot com.";
  "What time would work better for you tomorrow?";
  "Do you have a preferred time for tomorrow?";
  "Perfect! Your booking is confirmed. You'll receive a confirmation email shortly.";
  "Great! Your booking is confirmed. You'll receive a confirmation email shortly.";
  "Excellent! Your booking is confirmed. You'll receive a confirmation email shortly.";
  "I'm sorry, could you please repeat that?";
  "I didn't quite catch that. Could you say it again?";
  "Could you please say that again?";
  "Thank you!";
  "Great!";
  "Perfect!";
  "Excellent!";
  "I'm having trouble with that email. Could you please type it instead?";
  "That doesn't seem like a valid email. Could you type it in the text field?"]%string.

(** [preGenerateTTSCache]: the phrases' requests run in parallel; [order]
    is the order in which they settle, each settled request writing its
    entry. *)
Definition preGenerateTTSCache (apiKey : option str) (fetch : tts_fetch) (order : list str)
    (cache : tts_cache) : tts_cache :=
  if negb (truthy apiKey) then cache
  else fold_left (fun c phrase =>
         match snd (generateTTSInternal apiKey fetch phrase) with
         | Some audioUrl => map_set c phrase (TTSEntry phrase audioUrl 0)
         | None => c
         end) order cache.

(** ** In-memory storage ([MemStorage]) *)

Record user := User { u_id : str; u_username : str; u_password : str }.

(** The two maps of a [MemStorage], keyed by id. *)
Record mem_storage := MemStorage {
  ms_users : list (str * user); ms_bookings : list (str * booking) }.

Definition getUser (ms : mem_storage) (id : str) : option user := map_get (ms_users ms) id.

Definition getUserByUsername (ms : mem_storage) (username : str) : option user :=
  find (fun u => str_eqb (u_username u) username) (map snd (ms_users ms)).

(** [createUser]; [id] is the value of [randomUUID()]. *)
Definition createUser (ms : mem_storage) (id : str) (username password : str)
  : mem_storage * user :=
  let u := User id username password in
  (MemStorage (map_set (ms_users ms) id u) (ms_bookings ms), u).

(** [createBooking]; [id] is the value of [randomUUID()], [now] that of
    [new Date()]. *)
Definition createBooking (ms : mem_storage) (id : str) (now : datetime)
    (name email : str) (meetingTime : datetime) : mem_storage * booking :=
  let b := Booking id name email meetingTime now in
  (MemStorage (ms_users ms) (map_set (ms_bookings ms) id b), b).

Definition ms_getBookingsByDate (ms : mem_storage) (date : datetime) : list booking :=
  getBookingsByDate (map snd (ms_bookings ms)) date.

Definition ms_getAvailableTimeSlots (ms : mem_storage) (date : datetime) : list str :=
  getAvailableTimeSlots (map snd (ms_bookings ms)) date.

(** ** Booking endpoint ([app.post("/api/book")]) *)

(** [/(\d{1,2}):(\d{2})\s?(AM|PM)/i]. *)
Definition rx_booking_time : regex :=
  Regex (seqs [RGrp 1 d12; RChr ":"%char; RGrp 2 two_digits; sp_opt;
               RGrp 3 (alts [lit "AM"; lit "PM"])]) true.

Definition group_str (m : mres) (n : nat) : str :=
  match group m n with Some g => g | None => [] end.

(** [parseInt] of a group of one or two digits, which is always a number. *)
Definition int_of (o : option nat) : nat := match o with Some n => n | None => 0 end.

(** The arguments [hours, minutes] of [meetingTime.setHours]. *)
Definition booking_hm (selectedTime : option str) : nat * nat :=
  match selectedTime with
  | Some ((_ :: _) as s) =>
      match rsearch rx_booking_time s with
      | Some timeMatch =>
          let hours := int_of (parseInt (group_str timeMatch 1)) in
          let minutes := int_of (parseInt (group_str timeMatch 2)) in
          let ampm := toUpperCase (group_str timeMatch 3) in
          let hours := if str_eqb ampm (txt "PM") && negb (hours =? 12) then hours + 12
                       else hours in
          let hours := if str_eqb ampm (txt "AM") && (hours =? 12) then 0 else hours in
          (hours, minutes)
      | None => (12, 30)
      end
  | _ => (12, 30)
  end.

(** [d.setHours(h, m, 0, 0)] on a local date-time: an hour past 23 moves
    the date forward by whole days. *)
Definition setHours (d : datetime) (h m : nat) : datetime :=
  let t := (Z.of_nat h * 3600000 + Z.of_nat m * 60000)%Z in
  DT (dt_day d + t / 86400000) (t mod 86400000).

(** [sess.collectedData.name === name] for an optional field. *)
Definition field_is (o : option str) (s : str) : bool :=
  match o with Some x => str_eqb x s | None => false end.

(** The loop over [sessions.entries()] in insertion order. *)
Fixpoint find_session_time (st : store) (reqName reqEmail : str) : option str :=
  match st with
  | [] => None
  | (_, sess) :: rest =>
      let cd := collectedData sess in
      if field_is (name cd) reqName && field_is (email cd) reqEmail
         && truthy (meetingPreference cd)
      then meetingPreference cd
      else find_session_time rest reqName reqEmail
  end.

(** [encodeURIComponent] on code points below 256: the unreserved
    characters are kept, any other is written as the [%XX] escapes of its
    UTF-8 bytes. *)
Definition uri_unreserved (c : ascii) : bool :=
  is_upper c || is_lower c || is_digit c || includes (txt "-_.!~*'()") [c].

Definition hex_digit (n : nat) : ascii := nth n (txt "0123456789ABCDEF") "0"%char.

Definition pct (n : nat) : str := ["%"%char; hex_digit (n / 16); hex_digit (n mod 16)].

Definition uri_char (c : ascii) : str :=
  if uri_unreserved c then [c]
  else let n := nat_of_ascii c in
       if n <? 128 then pct n else pct (192 + n / 64) ++ pct (128 + n mod 64).

Definition encodeURIComponent (s : str) : str := flat_map uri_char s.

(** The validated body [{name, email, meetingTime?}]. *)
Record book_body := BookBody { bb_name : str; bb_email : str; bb_meetingTime : option str }.

(** [res.json({calendlyUrl})] or [res.status(500).json({error, message})]. *)
Inductive book_response :=
| BookOk (calendlyUrl : str)
| BookFail (status : nat) (message : str).

(** The handler after [bookingRequestSchema.parse], on a [MemStorage]; [now]
    is the time of the request, [id] the UUID drawn by [createBooking] and
    [calendlyBaseLink] the value of [CALENDLY_BASE_LINK]. *)
Definition book (st : store) (ms : mem_storage) (now : datetime) (id : str)
    (calendlyBaseLink : option str) (body : book_body) : mem_storage * book_response :=
  let name := bb_name body in
  let email := bb_email body in
  let tomorrow := DT (dt_day now + 1) (dt_ms now) in
  let selectedTime :=
    if negb (truthy (bb_meetingTime body))
    then match find_session_time st name email with
         | Some t => Some t
         | None => bb_meetingTime body
         end
    else bb_meetingTime body in
  let '(hours, minutes) := booking_hm selectedTime in
  let meetingTime := setHours tomorrow hours minutes in
  let '(ms', _) := createBooking ms id now name email meetingTime in
  match calendlyBaseLink with
  | Some ((_ :: _) as base) =>
      let separator := if includes base (txt "?") then txt "&" else txt "?" in
      let formattedTime :=
        match selectedTime with
        | Some ((_ :: _) as t) => t
        | _ => display_label (dt_hour meetingTime) (dt_minute meetingTime)
        end in
      (ms', BookOk (base ++ separator ++ txt "name=" ++ encodeURIComponent name ++
                    txt "&email=" ++ encodeURIComponent email ++
                    txt "&time=" ++ encodeURIComponent formattedTime))
  | _ => (ms', BookFail 500 (txt "CALENDLY_BASE_LINK environment variable not configured"))
  end.

(** ** WebSocket endpoint ([/voice-ws]) *)

(** [voiceAgentRequestSchema.parse(message.data)]; [None] is the ZodError. *)
Definition parseVoiceAgentRequest (v : option json) : option request :=
  match v with
  | Some ((JObj _) as o) =>
      match obj_get o (txt "sessionId"), obj_get o (txt "text"), obj_get o (txt "final") with
      | Some (JStr a), Some (JStr b), Some (JBool c) => Some (Request a b c)
      | _, _, _ => None
      end
  | _ => None
  end.

Definition exn_message (e : js_exn) : str :=
  match e with ETypeError m => m | EError m => m end.

(** A frame sent by the server.  An [error] text is [None] when it is the
    message of an error raised by [JSON.parse], a property read on [null]
    or zod; [messageId] is [None] when undefined (and left out by
    [JSON.stringify]). *)
Inductive frame :=
| FConnected
| FVoiceResponse (data : response) (messageId : option json)
| FStreamStart (messageId : option json) (sessionId : str)
| FStreamComplete (messageId : option json) (data : response)
| FStreamError (messageId : option json) (error : str)
| FPong
| FError (error : option str) (messageId : option json).

(** [processVoiceAgentRequestStreaming] runs the same statements as
    [processVoiceAgentRequest]; only its log lines differ. *)
Definition processVoiceAgentRequestStreaming := processVoiceAgentRequest.

(** [handleStreamingVoiceAgent], which catches the turn's error itself. *)
Definition handleStreamingVoiceAgent (st : store) (ev : env) (rq : request)
    (messageId : option json) : store * list params * list frame :=
  let start := FStreamStart messageId (req_sessionId rq) in
  let '(st', calls, r) := processVoiceAgentRequestStreaming st rq ev in
  match r with
  | inr response => (st', calls, [start; FStreamComplete messageId response])
  | inl e => (st', calls, [start; FStreamError messageId (exn_message e)])
  end.

Definition json_is (o : option json) (s : str) : bool :=
  match o with Some (JStr x) => str_eqb x s | _ => false end.

Definition unknown_id : option json := Some (JStr (txt "unknown")).

(** The [message] handler: the store, the provider calls and the frames
    sent, in order. *)
Definition ws_message (st : store) (ev : env) (data : str) : store * list params * list frame :=
  match JSON_parse data with
  | None => (st, [], [FError None unknown_id])
  | Some JNull => (st, [], [FError None unknown_id])
  | Some message =>
      let messageId := obj_get message (txt "messageId") in
      if json_is (obj_get message (txt "type")) (txt "voice_agent") then
        match parseVoiceAgentRequest (obj_get message (txt "data")) with
        | None => (st, [], [FError None unknown_id])
        | Some validatedData =>
            let '(st', calls, r) := processVoiceAgentRequest st validatedData ev in
            match r with
            | inr response => (st', calls, [FVoiceResponse response messageId])
            | inl e => (st', calls, [FError (Some (exn_message e)) unknown_id])
            end
        end
      else if json_is (obj_get message (txt "type")) (txt "voice_agent_stream") then
        match parseVoiceAgentRequest (obj_get message (txt "data")) with
        | None => (st, [], [FError None unknown_id])
        | Some validatedData => handleStreamingVoiceAgent st ev validatedData messageId
        end
      else if json_is (obj_get message (txt "type")) (txt "ping") then (st, [], [FPong])
      else (st, [], [FError (Some (txt "Unknown message type")) messageId])
  end.

(** ** Fixed inputs and specification-side definitions *)

(** Collected data of a session waiting for the user's verdict on a
    suggested slot: name and email known, no meeting time yet. *)
Definition cd_pending : collected :=
  Collected (Some (txt "Jane Smith")) (Some (txt "jane@yahoo.com")) None None []
            (Some (txt "10:00 AM")).

(** A parsed model reply with [askFor: null]. *)
Definition reply_askFor_null : llm_reply := LLMReply (JStr (txt "Okay.")) (Some JNull) false.

(** A parsed model reply with [askFor: "email"]. *)
Definition reply_askFor_email : llm_reply :=
  LLMReply (JStr (txt "What is your email?")) (Some (JStr (txt "email"))) false.

Definition sid_demo : str := txt "session-1".

(** Collaborators whose two providers both throw. *)
Definition env_llm_down : env :=
  Env [txt "9:00 AM"] 0 (fun _ => PThrow) (fun _ => PThrow) None (fun _ => None).

(** A store holding one fresh session. *)
Definition store_demo : store := [(sid_demo, new_session sid_demo)].

(** The session a turn starts from: the stored one, or a fresh one. *)
Definition prior (st : store) (sid : str) : session :=
  match store_get st sid with Some s => s | None => new_session sid end.

(** A [meetingPreference] transition: unchanged, or written once from an
    unset (falsy) value to a set one. *)
Definition mp_step (x y : option str) : Prop :=
  y = x \/ (truthy x = false /\ truthy y = true).

(** The [catch] path of [parseLLMResponse] is taken: the output is not JSON,
    or is [null], or has a falsy or missing [replyText]. *)
Definition parse_fails (s : str) : bool :=
  match JSON_parse s with
  | None => true
  | Some JNull => true
  | Some v => match obj_get v (txt "replyText") with
              | Some rt => negb (truthy_json rt)
              | None => true
              end
  end.

(** [meetingPreference] of a session as the next turn will find it. *)
Definition mp_of (st : store) (sid : str) : option str :=
  meetingPreference (collectedData (prior st sid)).

Definition opt_str_eqb (x y : option str) : bool :=
  match x, y with
  | Some a, Some b => str_eqb a b
  | None, None => true
  | _, _ => false
  end.

(** The number of changes along a sequence of values. *)
Fixpoint changes (l : list (option str)) : nat :=
  match l with
  | x :: ((y :: _) as t) => (if opt_str_eqb x y then 0 else 1) + changes t
  | _ => 0
  end.

Definition demo_turns : list (request * env) :=
  [(Request sid_demo (txt "hello") true, env_llm_down);
   (Request sid_demo (txt "3pm works") true, env_llm_down)].

Fixpoint nodupb (l : list str) : bool :=
  match l with
  | [] => true
  | x :: t => negb (mem_str x t) && nodupb t
  end.

Definition store_nodupb (st : store) : bool :=
  forallb (fun e => nodupb (rejectedSlots (collectedData (snd e)))) st.

(** Every session found in the store has a duplicate-free [rejectedSlots]. *)
Definition slots_nodup (st : store) : Prop :=
  forall k s, store_get st k = Some s -> NoDup (rejectedSlots (collectedData s)).

(** The slot grid as (hour, minute) pairs, in loop order. *)
Definition all_slots : list (nat * nat) :=
  flat_map (fun h => map (fun m => (h, m)) slot_minutes) slot_hours.

Definition slot_key (hm : nat * nat) : nat := 60 * fst hm + snd hm.

Definition slot_lt (x y : nat * nat) : Prop := slot_key x < slot_key y.

Fixpoint ascending (l : list (nat * nat)) : bool :=
  match l with
  | x :: ((y :: _) as t) => (slot_key x <? slot_key y) && ascending t
  | _ => true
  end.

(** A booking of the given calendar day at the given hour and minute. *)
Definition booked_at (bookings : list booking) (date : datetime) (h m : nat) : Prop :=
  exists b, In b bookings /\ dt_day (b_meetingTime b) = dt_day date /\
            (0 <= dt_ms (b_meetingTime b) <= 86399999)%Z /\
            dt_hour (b_meetingTime b) = h /\ dt_minute (b_meetingTime b) = m.

(** Entries of a TTS cache: each stored under its own text, shorter than
    200 characters, with an audio data URL. *)
Definition tts_cache_ok (c : tts_cache) : Prop :=
  forall k e, map_get c k = Some e ->
    e_text e = k /\ length k < 200 /\
    prefixb (txt "data:audio/mpeg;base64,") (e_audioUrl e) = true.

(** [decodeURIComponent] on the escapes of code points below 256. *)
Fixpoint uri_decode (s : str) : option str :=
  match s with
  | [] => Some []
  | c :: t =>
      if ascii_eqb c "%"%char then
        match t with
        | h1 :: h2 :: t1 =>
            match hex_val h1, hex_val h2 with
            | Some a, Some b =>
                let n := 16 * a + b in
                if n <? 128 then option_map (cons (ascii_of_nat n)) (uri_decode t1)
                else match t1 with
                     | p :: h3 :: h4 :: t2 =>
                         match hex_val h3, hex_val h4 with
                         | Some a', Some b' =>
                             if ascii_eqb p "%"%char
                             then option_map (cons (ascii_of_nat ((n - 192) * 64
                                                                  + (16 * a' + b' - 128))))
                                             (uri_decode t2)
                             else None
                         | _, _ => None
                         end
                     | _ => None
                     end
            | _, _ => None
            end
        | _ => None
        end
      else option_map (cons c) (uri_decode t)
  end.

(** The turn request carried by a WebSocket message, if it asks for one. *)
Definition ws_turn_request (data : str) : option request :=
  match JSON_parse data with
  | None => None
  | Some JNull => None
  | Some message =>
      if json_is (obj_get message (txt "type")) (txt "voice_agent")
         || json_is (obj_get message (txt "type")) (txt "voice_agent_stream")
      then parseVoiceAgentRequest (obj_get message (txt "data"))
      else None
  end.

(** The text [H:MM AM] or [H:MM PM] (the suffix also in lower case). *)
Definition time_text (h m : nat) (ampm : str) : str :=
  nat_str h ++ txt ":" ++ pad2 m ++ txt " " ++ ampm.

Definition ampm_forms : list str := [txt "AM"; txt "am"; txt "PM"; txt "pm"].

(** The [hours, minutes] the booking handler derives from [H:MM AM/PM]. *)
Definition hm_of (h m : nat) (ampm : str) : nat * nat :=
  (if str_eqb (toUpperCase ampm) (txt "PM")
   then (if h =? 12 then 12 else h + 12) else (if h =? 12 then 0 else h), m).

Definition pair_eqb (x y : nat * nat) : bool := (fst x =? fst y) && (snd x =? snd y).

Definition booking_hm_ok (h m : nat) (ap : str) : bool :=
  pair_eqb (booking_hm (Some (time_text h m ap))) (hm_of h m ap).

Definition hm_grid_check (hs ms : list nat) : bool :=
  forallb (fun h => forallb (fun m => forallb (booking_hm_ok h m) ampm_forms) ms) hs.

Definition pm_parse_ok (h : nat) : bool :=
  match parseTimeFromText (nat_str h ++ txt "pm") with
  | Some t => str_eqb t (nat_str h ++ txt ":00 PM")
  | None => false
  end.

Definition pm_parse_check : bool := forallb pm_parse_ok (seq 13 87).

(** A JSON text written with single quotes for its double quotes. *)
Definition json_text (s : string) : str :=
  map (fun c => if ascii_eqb c "'"%char then "034"%char else c) (txt s).

Definition ws_ping : str := json_text "{'type':'ping'}".

(** The text [caf\u00e9], its last character written as a JSON escape. *)
Definition cafe_escaped : str := txt "caf" ++ ["092"%char] ++ txt "u00e9".

Definition ws_voice_demo : str :=
  json_text "{'type':'voice_agent','messageId':'m-1','data':{'sessionId':'session-1','text':'"
  ++ cafe_escaped ++ json_text "','final':true}}".

Definition ws_stream_demo : str :=
  json_text "{'type':'voice_agent_stream','messageId':'m-2','data':{'sessionId':'session-1','text':'"
  ++ cafe_escaped ++ json_text "','final':true}}".

Definition rq_demo : request := Request sid_demo (txt "caf" ++ ["233"%char]) true.


Definition ws_voice_json : json :=
  Eval vm_compute in match JSON_parse ws_voice_demo with Some v => v | None => JNull end.

Definition ws_stream_json : json :=
  Eval vm_compute in match JSON_parse ws_stream_demo with Some v => v | None => JNull end.

Definition session_booked : session :=
  Session sid_demo [] (Collected (Some (txt "Jane")) (Some (txt "jane@yahoo.com"))
                                 (Some (txt "10:00 AM")) None [] None).

Definition users_demo : mem_storage :=
  MemStorage [(txt "u-1", User (txt "u-1") (txt "ann") (txt "pw1"))] [].

Definition long_text : str := repeat "a"%char 200.

(** * Proofs *)

(** ** Claim C2 *)

(** C2 (code bug).  The 20-character window is taken around
    [text.indexOf(parsedTime.toLowerCase())], the index of the canonical
    form ["3:00 pm"], which is [-1] when the user said ["3pm"]; the window is
    then the first 26 characters.  Here ["not"] starts five characters after
    ["3pm"], no rejection or acceptance phrase is present, and the bare time
    is written to [meetingPreference] anyway. *)
Theorem C2_negation_window_missed :
  let text := txt "the time I have in mind is 3pm, not 4pm" in
  index_of text (txt "3pm") = 27%Z /\ index_of text (txt "not") = 32%Z /\
  hasRejection (trim (toLowerCase text)) = false /\
  hasAcceptance (trim (toLowerCase text)) = false /\
  parseTimeFromText text = Some (txt "3:00 PM") /\
  index_of text (toLowerCase (txt "3:00 PM")) = (-1)%Z /\
  extractCollectedData cd_pending text reply_askFor_null
    = inr (set_meetingPreference cd_pending (Some (txt "3:00 PM"))).
Proof. vm_compute. repeat split; reflexivity. Qed.

(** ** Claim C4 *)

(** C4 (code bug).  [domainMap] is an object literal, so the spoken domain
    ["constructor"] finds [Object.prototype.constructor]; the function
    becomes [domain] and [domain.includes('.')] throws a [TypeError]: neither
    an address nor [null].  The thrown error escapes [extractCollectedData],
    so the turn fails.  The documented examples do hold. *)
Theorem C4_prototype_key_throws :
  parseEmailFromVoiceText (txt "john at constructor")
    = inl (ETypeError (txt "domain.includes is not a function")) /\
  extractCollectedData (set_email cd_pending None) (txt "john at constructor") reply_askFor_email
    = inl (ETypeError (txt "domain.includes is not a function")) /\
  parseEmailFromVoiceText (txt "john dot doe at gmail dot com") = inr (Some (txt "john.doe@gmail.com")) /\
  parseEmailFromVoiceText (txt "jane at the rate yahoo") = inr (Some (txt "jane@yahoo.com")) /\
  parseEmailFromVoiceText (txt "just some words") = inr None /\
  parseEmailFromVoiceText (txt "A@B.com") = inr (Some (txt "a@b.com")).
Proof. vm_compute. repeat split; reflexivity. Qed.

(** ** Claim C5 *)

(** C5 (code bug).  For ["3:30 PM"] the colon pattern matches, but the
    [\d{1,2}\s?(AM|PM)] branch is tested before the branch that keeps
    [match[0]], so the minutes are replaced by [00].  And no branch returns
    for ["3 o'clock"]: the loop moves on and the result is [null].  The
    documented examples hold. *)
Theorem C5_colon_minutes_dropped :
  parseTimeFromText (txt "3:30 PM") = Some (txt "3:00 PM") /\
  parseTimeFromText (txt "3 o'clock") = None /\
  parseTimeFromText (txt "3:00 PM") = Some (txt "3:00 PM") /\
  parseTimeFromText (txt "3PM") = Some (txt "3:00 PM") /\
  parseTimeFromText (txt "9 in the morning") = Some (txt "9:00 AM") /\
  parseTimeFromText (txt "6 in the evening") = Some (txt "6:00 PM") /\
  parseTimeFromText (txt "8 at night") = Some (txt "8:00 PM") /\
  parseTimeFromText (txt "let us talk") = None.
Proof. vm_compute. repeat split; reflexivity. Qed.

Lemma str_eqb_eq : forall a b, str_eqb a b = true <-> a = b.
Proof.
  induction a as [|x a IH]; destruct b as [|y b]; simpl; try (split; congruence).
  rewrite andb_true_iff, IH. unfold ascii_eqb. rewrite Ascii.eqb_eq.
  split; [intros [-> ->]; reflexivity | intros H; injection H; auto].
Qed.

Lemma str_eqb_false a b : str_eqb a b = false <-> a <> b.
Proof. rewrite <- str_eqb_eq. destruct (str_eqb a b); split; congruence. Qed.

Lemma store_get_set st k v k' :
  store_get (store_set st k v) k' = if str_eqb k k' then Some v else store_get st k'.
Proof.
  induction st as [|[k0 v0] t IH]; simpl.
  - reflexivity.
  - destruct (str_eqb k0 k) eqn:E0.
    + apply str_eqb_eq in E0; subst k0. simpl. destruct (str_eqb k k'); reflexivity.
    + simpl. rewrite IH. destruct (str_eqb k0 k') eqn:E1; [|reflexivity].
      apply str_eqb_eq in E1; subst k'. rewrite str_eqb_false in E0.
      destruct (str_eqb k k0) eqn:E2; [|reflexivity].
      apply str_eqb_eq in E2; congruence.
Qed.

Lemma getOrCreateSession_spec st sid :
  snd (getOrCreateSession st sid) = prior st sid /\
  forall k, store_get (fst (getOrCreateSession st sid)) k
            = if str_eqb sid k then Some (prior st sid) else store_get st k.
Proof.
  unfold getOrCreateSession, prior. destruct (store_get st sid) eqn:E; simpl.
  - split; [reflexivity|]. intros k. destruct (str_eqb sid k) eqn:Ek; [|reflexivity].
    apply str_eqb_eq in Ek; subst; exact E.
  - split; [reflexivity|]. intros k. apply store_get_set.
Qed.

Lemma addUserMessage_data s t f :
  sessionId (addUserMessage s t f) = sessionId s /\
  collectedData (addUserMessage s t f) = collectedData s /\
  messages (addUserMessage s t f)
    = messages s ++ (if f && negb (is_blank t) then [Msg RUser t] else []).
Proof.
  unfold addUserMessage. destruct (f && negb (is_blank t)); simpl; auto using app_nil_r.
Qed.

Lemma addTimeSlotContext_shape s ctx sl rnd :
  fst (addTimeSlotContext s ctx sl rnd) = s \/
  exists x, fst (addTimeSlotContext s ctx sl rnd)
            = with_data s (set_lastSuggestedSlot (collectedData s) x).
Proof.
  unfold addTimeSlotContext.
  destruct (_ && _ && _ && _); [|left; reflexivity].
  destruct (filter _ sl); [left; reflexivity|].
  destruct (2 <=? _); [left; reflexivity|]. right. eexists. reflexivity.
Qed.

Lemma addTimeSlotContext_fields s ctx sl rnd :
  let s' := fst (addTimeSlotContext s ctx sl rnd) in
  sessionId s' = sessionId s /\ messages s' = messages s /\
  meetingPreference (collectedData s') = meetingPreference (collectedData s) /\
  rejectedSlots (collectedData s') = rejectedSlots (collectedData s).
Proof.
  destruct (addTimeSlotContext_shape s ctx sl rnd) as [-> | [x ->]]; simpl; auto.
Qed.

Lemma addTimeSlotContext_skip s ctx sl rnd :
  truthy (meetingPreference (collectedData s)) = true ->
  addTimeSlotContext s ctx sl rnd = (s, ctx).
Proof.
  intros H. unfold addTimeSlotContext. rewrite H. simpl.
  rewrite !andb_false_r. reflexivity.
Qed.

Lemma createChatCompletion_messages g o m :
  forall p, In p (fst (createChatCompletion g o m)) -> p_messages p = m.
Proof.
  unfold createChatCompletion. intros p.
  destruct (g _); [destruct (o _)|]; simpl; intuition subst; reflexivity.
Qed.

Ltac case_ifs :=
  repeat match goal with
  | |- context [if ?c then _ else _] => let E := fresh "E" in destruct c eqn:E
  end.

Lemma mem_str_false x l : mem_str x l = false -> ~ In x l.
Proof.
  unfold mem_str. intros H Hin.
  assert (existsb (str_eqb x) l = true) by (apply existsb_exists; exists x; split; [exact Hin | apply str_eqb_eq; reflexivity]).
  congruence.
Qed.

Lemma NoDup_snoc (l : list str) x : NoDup l -> ~ In x l -> NoDup (l ++ [x]).
Proof.
  induction l as [|a l IH]; intros H Hx; simpl.
  - constructor; [intros []|constructor].
  - inversion H as [|? ? Ha Hl]; subst. constructor.
    + rewrite in_app_iff. intros [Hin|[Hax|[]]]; [contradiction|].
      subst. apply Hx. left. reflexivity.
    + apply IH; [exact Hl|]. intros Hin. apply Hx. right. exact Hin.
Qed.

Lemma classify_reply_mp cd t :
  meetingPreference (classify_reply cd t) = meetingPreference cd \/
  truthy (meetingPreference (classify_reply cd t)) = true.
Proof.
  unfold classify_reply. cbv zeta. destruct (lastSuggestedSlot cd) as [l|] eqn:El;
  case_ifs; simpl; try (left; reflexivity); right; rewrite ?andb_true_iff in *; intuition.
Qed.

Lemma classify_reply_nodup cd t :
  NoDup (rejectedSlots cd) -> NoDup (rejectedSlots (classify_reply cd t)).
Proof.
  intros H. unfold classify_reply. cbv zeta. destruct (lastSuggestedSlot cd) as [l|] eqn:El;
  case_ifs; simpl; try exact H; rewrite ?andb_true_iff, ?negb_true_iff in *;
  apply NoDup_snoc; try exact H; apply mem_str_false; intuition.
Qed.

Lemma parseEmailFromVoiceText_exn t e :
  parseEmailFromVoiceText t = inl e -> e = ETypeError (txt "domain.includes is not a function").
Proof.
  unfold parseEmailFromVoiceText. cbv zeta.
  destruct (rsearch _ _); [discriminate|].
  case_ifs; [discriminate|].
  destruct (split_on _ _) as [|a [|b [|c l]]]; try discriminate.
  destruct (domainMap_get _) as [[d|d]|]; try discriminate.
  intros H; injection H; auto.
Qed.

Lemma extract_step_shape cd t p cd' :
  extractCollectedData cd t p = inr cd' ->
  mp_step (meetingPreference cd) (meetingPreference cd') /\
  (NoDup (rejectedSlots cd) -> NoDup (rejectedSlots cd')).
Proof.
  intros H. unfold extractCollectedData in H. destruct (is_blank t).
  { injection H as <-. split; [left; reflexivity | auto]. }
  cbv zeta in H.
  match type of H with (match ?x with _ => _ end) = _ => destruct x as [e|c1] eqn:Est end;
    [discriminate|].
  injection H as <-.
  assert (Hs : mp_step (meetingPreference cd) (meetingPreference c1) /\
               (NoDup (rejectedSlots cd) -> NoDup (rejectedSlots c1))).
  { revert Est. destruct (parseEmailFromVoiceText t) as [e|ee]; case_ifs; intros Est;
    try discriminate; injection Est as <-; simpl;
    rewrite ?andb_true_iff, ?orb_true_iff, ?negb_true_iff in *.
    all: try (split; [left; reflexivity | tauto]).
    all: try (split; [right; intuition | tauto]).
    all: destruct (classify_reply_mp cd t) as [Hm|Hm]; split; unfold mp_step;
         first [left; exact Hm | right; tauto | apply classify_reply_nodup]. }
  destruct Hs as [S1 S2]. case_ifs; [|split; assumption].
  rewrite !andb_true_iff, !negb_true_iff in *. simpl. split; [|exact S2].
  right. destruct S1 as [S1|[S1 S1']]; [rewrite S1 in E; intuition | intuition congruence].
Qed.

Lemma str_eqb_refl a : str_eqb a a = true.
Proof. apply str_eqb_eq. reflexivity. Qed.

Lemma extract_exn cd t p e :
  extractCollectedData cd t p = inl e -> e = ETypeError (txt "domain.includes is not a function").
Proof.
  unfold extractCollectedData. destruct (is_blank t); [discriminate|]. cbv zeta.
  match goal with |- (match ?x with _ => _ end) = _ -> _ => destruct x as [e0|c1] eqn:Est end;
    [|discriminate].
  intros H; injection H as <-. revert Est.
  destruct (parseEmailFromVoiceText t) as [e1|ee] eqn:Ep; case_ifs; intros Est;
    try discriminate; injection Est as <-; exact (parseEmailFromVoiceText_exn t e1 Ep).
Qed.

Lemma tts_step_exn ev v e :
  tts_step ev v = inl e -> e = ETypeError (txt "text.substring is not a function").
Proof.
  unfold tts_step. destruct (_ || _); [discriminate|].
  destruct v; try (intros H; injection H as <-; reflexivity). discriminate.
Qed.

Lemma tts_step_str ev s : exists a, tts_step ev (JStr s) = inr a.
Proof. unfold tts_step. destruct (_ || _); eexists; reflexivity. Qed.

(** What one turn does to the store: only the request's session changes;
    after a failure it holds the session as it stood when the model was
    called, after a success that session with the model output appended
    and the extracted data. *)
Lemma turn_cases st rq ev :
  let sid := req_sessionId rq in
  let s1 := addUserMessage (prior st sid) (req_text rq) (req_final rq) in
  let s2 := fst (addTimeSlotContext s1 (messages s1) (env_slots ev) (env_rand ev)) in
  let r := processVoiceAgentRequest st rq ev in
  (forall k, str_eqb sid k = false -> store_get (fst (fst r)) k = store_get st k) /\
  let done_ := exists c cd, c <> [] /\
      extractCollectedData (collectedData s2) (req_text rq) (parseLLMResponse c) = inr cd /\
      store_get (fst (fst r)) sid
        = Some (Session (sessionId s2) (messages s2 ++ [Msg RAssistant c]) cd) in
  match snd r with
  | inl e => store_get (fst (fst r)) sid = Some s2 \/
             (e = ETypeError (txt "text.substring is not a function") /\ done_)
  | inr _ => done_
  end.
Proof.
  cbv zeta. unfold processVoiceAgentRequest.
  destruct (getOrCreateSession_spec st (req_sessionId rq)) as [Hs0 Hget].
  destruct (getOrCreateSession st (req_sessionId rq)) as [st1 s0]. simpl in Hs0, Hget. subst s0.
  destruct (addTimeSlotContext _ _ _ _) as [s2 ctx]. simpl.
  assert (Hother : forall v k, str_eqb (req_sessionId rq) k = false ->
            store_get (store_set st1 (req_sessionId rq) v) k = store_get st k).
  { intros v k Hk. rewrite store_get_set, Hk, Hget, Hk. reflexivity. }
  assert (Hsame : forall v, store_get (store_set st1 (req_sessionId rq) v) (req_sessionId rq) = Some v).
  { intros v. rewrite store_get_set, str_eqb_refl. reflexivity. }
  destruct (createChatCompletion _ _ _) as [calls [e|[c prov]]]; simpl.
  - split; [apply Hother | left; apply Hsame].
  - destruct (truthy c) eqn:Etc; simpl; [|split; [apply Hother | left; apply Hsame]].
    destruct (extractCollectedData _ _ _) as [e|cd] eqn:Ex; simpl.
    + split; [apply Hother | left; apply Hsame].
    + assert (Hd : exists c0 cd0, c0 <> [] /\
        extractCollectedData (collectedData s2) (req_text rq) (parseLLMResponse c0) = inr cd0 /\
        store_get (store_set (store_set st1 (req_sessionId rq) s2) (req_sessionId rq)
             (Session (sessionId s2) (messages s2 ++ [Msg RAssistant (match c with Some x => x | None => [] end)]) cd))
             (req_sessionId rq)
        = Some (Session (sessionId s2) (messages s2 ++ [Msg RAssistant c0]) cd0)).
      { exists (match c with Some x => x | None => [] end), cd.
        destruct c as [[|x c]|]; try discriminate. split; [discriminate|].
        split; [exact Ex|]. rewrite store_get_set, str_eqb_refl. reflexivity. }
      assert (Hk' : forall k, str_eqb (req_sessionId rq) k = false ->
        store_get (store_set (store_set st1 (req_sessionId rq) s2) (req_sessionId rq)
             (Session (sessionId s2) (messages s2 ++ [Msg RAssistant (match c with Some x => x | None => [] end)]) cd))
             k = store_get st k).
      { intros k Hk. rewrite store_get_set, Hk. apply Hother. exact Hk. }
      destruct (tts_step _ _) as [e|a] eqn:Et; simpl.
      * split; [exact Hk'|]. right. split; [exact (tts_step_exn _ _ _ Et) | exact Hd].
      * split; [exact Hk' | exact Hd].
Qed.

Lemma prior_session_messages st rq ev :
  let sid := req_sessionId rq in
  let s1 := addUserMessage (prior st sid) (req_text rq) (req_final rq) in
  let s2 := fst (addTimeSlotContext s1 (messages s1) (env_slots ev) (env_rand ev)) in
  messages s2 = messages (prior st sid)
                ++ (if req_final rq && negb (is_blank (req_text rq)) then [Msg RUser (req_text rq)] else []) /\
  meetingPreference (collectedData s2) = meetingPreference (collectedData (prior st sid)) /\
  rejectedSlots (collectedData s2) = rejectedSlots (collectedData (prior st sid)).
Proof.
  cbv zeta.
  destruct (addTimeSlotContext_fields (addUserMessage (prior st (req_sessionId rq)) (req_text rq) (req_final rq))
             (messages (addUserMessage (prior st (req_sessionId rq)) (req_text rq) (req_final rq)))
             (env_slots ev) (env_rand ev)) as [_ [Hm [Hp Hr]]].
  destruct (addUserMessage_data (prior st (req_sessionId rq)) (req_text rq) (req_final rq)) as [_ [Hd Hu]].
  rewrite Hm, Hp, Hr, Hu, Hd. auto.
Qed.

(** ** Claim C1 *)



(** ** Claim C6 *)

Lemma parse_fails_fallback s : parse_fails s = true -> parseLLMResponse s = fallbackResponse s.
Proof.
  unfold parse_fails, parseLLMResponse.
  destruct (JSON_parse s) as [v|]; [|reflexivity].
  destruct v; try reflexivity;
  destruct (obj_get _ _) as [rt|]; try reflexivity;
  destruct (truthy_json rt); simpl; congruence.
Qed.

(** C6 (amended).  When the model output is non-empty and fails to parse,
    [parseLLMResponse] returns [askFor: null], [readyToBook: false] and as
    [replyText] the fixed "please repeat" reply if the output contains a
    brace, and the raw output otherwise.  A turn on that output, whichever
    provider returned it, does not fail because of the parse: it returns
    that reply, unless the data extraction throws its [TypeError]. *)
Theorem C6_parse_failure_recovered (s : str) (Hs : s <> []) (Hf : parse_fails s = true) :
  parseLLMResponse s
    = LLMReply (JStr (if includes s (txt "{") then repeat_reply else s)) (Some JNull) false /\
  forall st rq ev,
    (forall msgs, exists calls provider,
       createChatCompletion (env_groq ev) (env_openai ev) msgs = (calls, inr (Some s, provider))) ->
    match snd (processVoiceAgentRequest st rq ev) with
    | inr r => r_replyText r = JStr (if includes s (txt "{") then repeat_reply else s) /\
               r_askFor r = Some JNull /\ r_readyToBook r = false
    | inl e => e = ETypeError (txt "domain.includes is not a function")
    end.
Proof.
  pose proof (parse_fails_fallback s Hf) as Hp.
  split; [exact Hp|]. intros st rq ev Hg.
  unfold processVoiceAgentRequest.
  destruct (getOrCreateSession _ _) as [st1 s0].
  destruct (addTimeSlotContext _ _ _ _) as [s2 ctx].
  destruct (Hg ctx) as [calls [provider Hc]]. rewrite Hc.
  destruct s as [|x s']; [contradiction|]. cbn [negb truthy].
  rewrite Hp.
  destruct (extractCollectedData _ _ _) as [e|cd] eqn:Ex.
  - exact (extract_exn _ _ _ _ Ex).
  - unfold fallbackResponse. cbn [replyText].
    match goal with |- context [tts_step ev (JStr ?t)] =>
      destruct (tts_step_str ev t) as [a Ha]; rewrite Ha end.
    simpl. auto.
Qed.

(** C6 (counterexample).  ["Hello there"] is not JSON, yet the reply is the
    raw output, not the fixed "please repeat" reply. *)
Lemma C6_plain_text_output_echoed :
  parse_fails (txt "Hello there") = true /\
  replyText (parseLLMResponse (txt "Hello there")) = JStr (txt "Hello there") /\
  replyText (parseLLMResponse (txt "Hello there")) <> JStr repeat_reply.
Proof. vm_compute. split; [reflexivity | split; [reflexivity | discriminate]]. Qed.

Lemma C6_witness :
  txt "Hello there" <> [] /\ parse_fails (txt "Hello there") = true /\
  parseLLMResponse (txt "Hello there")
    = LLMReply (JStr (txt "Hello there")) (Some JNull) false.
Proof.
  assert (H1 : txt "Hello there" <> []) by discriminate.
  assert (H2 : parse_fails (txt "Hello there") = true) by (vm_compute; reflexivity).
  split; [exact H1 | split; [exact H2 |]].
  exact (proj1 (C6_parse_failure_recovered (txt "Hello there") H1 H2)).
Defined.

(** ** Claim C7 *)

(** C7.  The gateway calls the primary provider first, with the fixed
    parameters; only if that call throws does it make one call to the
    secondary, with the same messages, temperature, token limit and
    response format; if that throws too it throws
    ["Both LLM providers failed"], which the turn surfaces as its error. *)
Theorem C7_single_fallback groq openai msgs :
  let gp := with_model (txt "llama-3.1-8b-instant") msgs in
  let op := with_model (txt "gpt-4o-mini") msgs in
  createChatCompletion groq openai msgs
    = match groq gp with
      | PReturn c => ([gp], inr (c, txt "groq"))
      | PThrow => ([gp; op], match openai op with
                             | PReturn c => inr (c, txt "openai")
                             | PThrow => inl (EError (txt "Both LLM providers failed"))
                             end)
      end /\
  hd_error (fst (createChatCompletion groq openai msgs)) = Some gp /\
  length (fst (createChatCompletion groq openai msgs)) <= 2 /\
  p_messages op = p_messages gp /\ p_temperature op = p_temperature gp /\
  p_max_tokens op = p_max_tokens gp /\ p_response_format op = p_response_format gp /\
  forall st rq ev, (forall p, env_groq ev p = PThrow) -> (forall p, env_openai ev p = PThrow) ->
    snd (processVoiceAgentRequest st rq ev) = inl (EError (txt "Both LLM providers failed")) /\
    length (snd (fst (processVoiceAgentRequest st rq ev))) = 2.
Proof.
  cbv zeta. unfold createChatCompletion.
  split; [destruct (groq _); [destruct (openai _)|]; reflexivity|].
  split; [destruct (groq _); [destruct (openai _)|]; reflexivity|].
  split; [destruct (groq _); [destruct (openai _)|]; simpl; lia|].
  do 4 (split; [reflexivity|]).
  intros st rq ev Hg Ho; unfold processVoiceAgentRequest;
  destruct (getOrCreateSession _ _) as [st1 s0];
  destruct (addTimeSlotContext _ _ _ _) as [s2 ctx];
  unfold createChatCompletion; rewrite Hg, Ho; split; reflexivity.
Qed.

Lemma C7_witness :
  snd (processVoiceAgentRequest store_demo (Request sid_demo (txt "hello") true) env_llm_down)
    = inl (EError (txt "Both LLM providers failed")).
Proof.
  refine (proj1 (proj2 (proj2 (proj2 (proj2 (proj2 (proj2 (proj2
    (C7_single_fallback (fun _ => PThrow) (fun _ => PThrow) []))))))) store_demo
    (Request sid_demo (txt "hello") true) env_llm_down _ _)); intros p; reflexivity.
Defined.

(** ** Turn invariants *)

Lemma turn_prior_step st rq ev k :
  let st' := fst (fst (processVoiceAgentRequest st rq ev)) in
  mp_step (meetingPreference (collectedData (prior st k)))
          (meetingPreference (collectedData (prior st' k))) /\
  (NoDup (rejectedSlots (collectedData (prior st k))) ->
   NoDup (rejectedSlots (collectedData (prior st' k)))).
Proof.
  cbv zeta. destruct (turn_cases st rq ev) as [Ho Hc].
  destruct (prior_session_messages st rq ev) as [_ [Hm Hr]]. cbv zeta in *.
  destruct (str_eqb (req_sessionId rq) k) eqn:Ek.
  - apply str_eqb_eq in Ek. subst k. unfold prior at 2 4.
    assert (Hdone : forall c cd,
      extractCollectedData (collectedData (fst (addTimeSlotContext
        (addUserMessage (prior st (req_sessionId rq)) (req_text rq) (req_final rq))
        (messages (addUserMessage (prior st (req_sessionId rq)) (req_text rq) (req_final rq)))
        (env_slots ev) (env_rand ev)))) (req_text rq) (parseLLMResponse c) = inr cd ->
      store_get (fst (fst (processVoiceAgentRequest st rq ev))) (req_sessionId rq) =
        Some (Session (sessionId (fst (addTimeSlotContext
        (addUserMessage (prior st (req_sessionId rq)) (req_text rq) (req_final rq))
        (messages (addUserMessage (prior st (req_sessionId rq)) (req_text rq) (req_final rq)))
        (env_slots ev) (env_rand ev))))
          (messages (fst (addTimeSlotContext
        (addUserMessage (prior st (req_sessionId rq)) (req_text rq) (req_final rq))
        (messages (addUserMessage (prior st (req_sessionId rq)) (req_text rq) (req_final rq)))
        (env_slots ev) (env_rand ev))) ++ [Msg RAssistant c]) cd) ->
      mp_step (meetingPreference (collectedData (prior st (req_sessionId rq))))
        (meetingPreference (collectedData (match store_get (fst (fst (processVoiceAgentRequest st rq ev))) (req_sessionId rq) with
                                           | Some s => s | None => new_session (req_sessionId rq) end))) /\
      (NoDup (rejectedSlots (collectedData (prior st (req_sessionId rq)))) ->
       NoDup (rejectedSlots (collectedData (match store_get (fst (fst (processVoiceAgentRequest st rq ev))) (req_sessionId rq) with
                                           | Some s => s | None => new_session (req_sessionId rq) end))))).
    { intros c cd Hx Hg. rewrite Hg. simpl.
      destruct (extract_step_shape _ _ _ _ Hx) as [Hs Hn].
      rewrite Hm in Hs. rewrite Hr in Hn. split; [exact Hs | exact Hn]. }
    destruct (snd (processVoiceAgentRequest st rq ev)).
    + destruct Hc as [Hc|[_ [c [cd [_ [Hx Hg]]]]]].
      * rewrite Hc. rewrite Hm, Hr. split; [left; reflexivity | auto].
      * exact (Hdone c cd Hx Hg).
    + destruct Hc as [c [cd [_ [Hx Hg]]]]. exact (Hdone c cd Hx Hg).
  - unfold prior. rewrite (Ho k Ek). split; [left; reflexivity | auto].
Qed.

Lemma opt_str_eqb_refl x : opt_str_eqb x x = true.
Proof. destruct x; simpl; [apply str_eqb_refl | reflexivity]. Qed.

Lemma changes_bound turns : forall st sid,
  mp_of st sid = None \/ truthy (mp_of st sid) = true ->
  changes (map (fun s => mp_of s sid) (st :: run_turns st turns))
    <= (if truthy (mp_of st sid) then 0 else 1).
Proof.
  induction turns as [|[rq ev] rest IH]; intros st sid Hp; simpl; [lia|].
  pose proof (proj1 (turn_prior_step st rq ev sid)) as Hs.
  destruct (processVoiceAgentRequest st rq ev) as [[st' calls] r]. simpl in Hs |- *.
  fold (mp_of st sid) (mp_of st' sid) in Hs.
  specialize (IH st' sid). simpl in IH.
  destruct Hs as [Hs|[Hx Hy]].
  - rewrite Hs in IH |- *. rewrite opt_str_eqb_refl. simpl. apply IH. exact Hp.
  - specialize (IH (or_intror Hy)). rewrite Hy in IH. rewrite Hx.
    destruct (opt_str_eqb _ _); lia.
Qed.

(** ** Claim C8 *)

(** C8.  Along any sequence of turns starting from a store where the
    session's [meetingPreference] is unset, the value changes at most once;
    and on a turn where it is set, [addTimeSlotContext] adds nothing: every
    provider call is sent exactly the session's messages. *)
Theorem C8_meetingPreference_written_once st turns sid (H : mp_of st sid = None) :
  changes (map (fun s => mp_of s sid) (st :: run_turns st turns)) <= 1 /\
  forall st0 rq ev, truthy (mp_of st0 (req_sessionId rq)) = true ->
    forall p, In p (snd (fst (processVoiceAgentRequest st0 rq ev))) ->
      p_messages p = messages (addUserMessage (prior st0 (req_sessionId rq)) (req_text rq) (req_final rq)).
Proof.
  split.
  - pose proof (changes_bound turns st sid (or_introl H)) as Hb. rewrite H in Hb. exact Hb.
  - intros st0 rq ev Ht. unfold processVoiceAgentRequest.
    destruct (getOrCreateSession_spec st0 (req_sessionId rq)) as [Hs0 _].
    destruct (getOrCreateSession _ _) as [st1 s0]. simpl in Hs0. subst s0.
    rewrite addTimeSlotContext_skip
      by (rewrite (proj1 (proj2 (addUserMessage_data _ _ _))); exact Ht).
    pose proof (createChatCompletion_messages (env_groq ev) (env_openai ev)
                  (messages (addUserMessage (prior st0 (req_sessionId rq)) (req_text rq) (req_final rq)))) as Hc.
    destruct (createChatCompletion _ _ _) as [calls llm]. simpl in Hc.
    destruct llm as [e|[c prov]];
      [|destruct (negb (truthy c)); [|destruct (extractCollectedData _ _ _); [|destruct (tts_step _ _)]]];
      exact Hc.
Qed.

Lemma C8_witness :
  mp_of [] sid_demo = None /\
  changes (map (fun s => mp_of s sid_demo) ([] :: run_turns [] demo_turns)) <= 1.
Proof.
  split; [reflexivity|].
  exact (proj1 (C8_meetingPreference_written_once [] demo_turns sid_demo eq_refl)).
Defined.

(** ** Claim C10 *)

Lemma nodupb_NoDup l : nodupb l = true -> NoDup l.
Proof.
  induction l as [|x t IH]; simpl; intros H; [constructor|].
  apply andb_true_iff in H as [H1 H2]. apply negb_true_iff in H1.
  constructor; [apply mem_str_false; exact H1 | apply IH; exact H2].
Qed.

Lemma store_nodupb_sound st : store_nodupb st = true -> slots_nodup st.
Proof.
  induction st as [|[k0 v0] t IH]; simpl; intros H k s Hg; [discriminate|].
  apply andb_true_iff in H as [H1 H2].
  simpl in Hg. destruct (str_eqb k0 k); [injection Hg as <-; apply nodupb_NoDup; exact H1|].
  exact (IH H2 k s Hg).
Qed.

Lemma slots_nodup_prior st k : slots_nodup st -> NoDup (rejectedSlots (collectedData (prior st k))).
Proof.
  intros H. unfold prior. destruct (store_get st k) eqn:E; [exact (H k s E)|]. simpl. constructor.
Qed.

Lemma turn_slots_nodup st rq ev :
  slots_nodup st -> slots_nodup (fst (fst (processVoiceAgentRequest st rq ev))).
Proof.
  intros H k s Hg.
  pose proof (proj2 (turn_prior_step st rq ev k) (slots_nodup_prior st k H)) as Hn.
  cbv zeta in Hn. unfold prior in Hn. rewrite Hg in Hn. exact Hn.
Qed.

Lemma run_turns_slots_nodup turns : forall st, slots_nodup st -> Forall slots_nodup (run_turns st turns).
Proof.
  induction turns as [|[rq ev] rest IH]; intros st H; simpl; [constructor|].
  pose proof (turn_slots_nodup st rq ev H) as H'.
  destruct (processVoiceAgentRequest st rq ev) as [[st' calls] r]. simpl in H'.
  constructor; [exact H' | apply IH; exact H'].
Qed.

(** C10.  From a store whose sessions have duplicate-free [rejectedSlots]
    (the empty store the server starts with, for one), every store reached
    by a sequence of turns has only sessions with duplicate-free
    [rejectedSlots]. *)
Theorem C10_rejectedSlots_no_duplicates st turns (H : store_nodupb st = true) :
  Forall slots_nodup (run_turns st turns).
Proof. apply run_turns_slots_nodup, store_nodupb_sound, H. Qed.

Lemma C10_witness :
  store_nodupb [] = true /\ Forall slots_nodup (run_turns [] demo_turns).
Proof.
  split; [reflexivity|]. exact (C10_rejectedSlots_no_duplicates [] demo_turns eq_refl).
Defined.

(** ** Slot calendar *)

Lemma mem_str_In x l : mem_str x l = true <-> In x l.
Proof.
  unfold mem_str. rewrite existsb_exists. split.
  - intros [y [Hy He]]. apply str_eqb_eq in He. subst. exact Hy.
  - intros H. exists x. split; [exact H | apply str_eqb_refl].
Qed.

Lemma pad2_digits n : n < 100 -> pad2 n = [digit_char (n / 10); digit_char (n mod 10)].
Proof.
  intros H. do 100 (destruct n as [|n]; [reflexivity|]). lia.
Qed.

Lemma digit_char_inj a b : a < 10 -> b < 10 -> digit_char a = digit_char b -> a = b.
Proof.
  intros Ha Hb H. unfold digit_char in H.
  apply (f_equal nat_of_ascii) in H.
  rewrite !nat_ascii_embedding in H by lia. lia.
Qed.

Lemma pad2_split n : n < 100 ->
  exists q r, q < 10 /\ r < 10 /\ n = 10 * q + r /\ pad2 n = [digit_char q; digit_char r].
Proof.
  intros H. exists (n / 10), (n mod 10).
  split; [apply Nat.Div0.div_lt_upper_bound; lia|].
  split; [apply Nat.mod_upper_bound; lia|].
  split; [apply Nat.div_mod_eq | apply pad2_digits, H].
Qed.

Lemma hhmm_inj h m h' m' : h < 100 -> m < 100 -> h' < 100 -> m' < 100 ->
  pad2 h ++ txt ":" ++ pad2 m = pad2 h' ++ txt ":" ++ pad2 m' -> h = h' /\ m = m'.
Proof.
  intros H1 H2 H3 H4 H.
  destruct (pad2_split h H1) as [a1 [b1 [Ha1 [Hb1 [E1 P1]]]]].
  destruct (pad2_split m H2) as [a2 [b2 [Ha2 [Hb2 [E2 P2]]]]].
  destruct (pad2_split h' H3) as [a3 [b3 [Ha3 [Hb3 [E3 P3]]]]].
  destruct (pad2_split m' H4) as [a4 [b4 [Ha4 [Hb4 [E4 P4]]]]].
  rewrite P1, P2, P3, P4 in H. simpl in H. injection H as F1 F2 F3 F4.
  apply digit_char_inj in F1, F2, F3, F4; try assumption. lia.
Qed.

Lemma day_window t d :
  dt_le (DT d 0) t && dt_le t (DT d 86399999) = true <->
  dt_day t = d /\ (0 <= dt_ms t <= 86399999)%Z.
Proof.
  destruct t as [dd ms]. unfold dt_le. simpl.
  rewrite andb_true_iff, !orb_true_iff, !andb_true_iff, !Z.ltb_lt, !Z.eqb_eq, !Z.leb_le.
  split; intros; lia.
Qed.

Lemma dt_hour_bound t : (0 <= dt_ms t <= 86399999)%Z -> dt_hour t < 24.
Proof.
  intros H. unfold dt_hour.
  assert (Hq : (0 <= dt_ms t / 3600000 < 24)%Z).
  { split; [apply Z.div_pos; lia | apply Z.div_lt_upper_bound; lia]. }
  apply Nat2Z.inj_lt. rewrite Z2Nat.id by lia. simpl. lia.
Qed.

Lemma dt_minute_bound t : dt_minute t < 60.
Proof.
  unfold dt_minute.
  assert (Hq : (0 <= (dt_ms t / 60000) mod 60 < 60)%Z) by (apply Z.mod_pos_bound; lia).
  apply Nat2Z.inj_lt. rewrite Z2Nat.id by lia. simpl. lia.
Qed.

Lemma flat_map_filter (hs ms : list nat) (f : nat -> nat -> bool) (g : nat -> nat -> str) :
  flat_map (fun h => flat_map (fun m => if f h m then [g h m] else []) ms) hs
  = map (fun hm => g (fst hm) (snd hm))
        (filter (fun hm => f (fst hm) (snd hm)) (flat_map (fun h => map (fun m => (h, m)) ms) hs)).
Proof.
  induction hs as [|h hs IH]; simpl; [reflexivity|].
  rewrite filter_app, map_app, IH. f_equal. clear IH.
  induction ms as [|m ms IHm]; simpl; [reflexivity|].
  destruct (f h m); simpl; rewrite IHm; reflexivity.
Qed.

Lemma ascending_sorted l : ascending l = true -> Sorted slot_lt l.
Proof.
  induction l as [|x [|y t] IH]; simpl; intros H.
  - constructor.
  - repeat constructor.
  - apply andb_true_iff in H as [H1 H2]. apply Nat.ltb_lt in H1.
    constructor; [apply IH; exact H2 | constructor; exact H1].
Qed.

Lemma StronglySorted_filter (f : nat * nat -> bool) l :
  StronglySorted slot_lt l -> StronglySorted slot_lt (filter f l).
Proof.
  induction l as [|x t IH]; simpl; intros H; [constructor|].
  inversion H as [|? ? Ht Hf]; subst.
  destruct (f x); [constructor|]; auto.
  rewrite Forall_forall in Hf |- *. intros y Hy. apply filter_In in Hy. apply Hf, Hy.
Qed.

Lemma all_slots_sorted : StronglySorted slot_lt all_slots.
Proof.
  apply Sorted_StronglySorted.
  - intros x y z; unfold slot_lt; lia.
  - apply ascending_sorted. reflexivity.
Qed.

Lemma in_all_slots h m : In (h, m) all_slots <-> 9 <= h < 18 /\ (m = 0 \/ m = 30).
Proof.
  unfold all_slots, slot_hours, slot_minutes. rewrite in_flat_map. split.
  - intros [h' [Hh Hm]]. apply in_seq in Hh. simpl in Hm.
    destruct Hm as [Hm|[Hm|[]]]; injection Hm as <- <-; lia.
  - intros [Hh Hm]. exists h. split; [apply in_seq; lia|]. simpl.
    destruct Hm as [->| ->]; auto.
Qed.

Lemma booked_mem bookings date h m : h < 100 -> m < 100 ->
  (mem_str (pad2 h ++ txt ":" ++ pad2 m)
           (map (fun b => time_hhmm (b_meetingTime b)) (getBookingsByDate bookings date)) = true
   <-> booked_at bookings date h m).
Proof.
  intros Hh Hm. rewrite mem_str_In, in_map_iff. split.
  - intros [b [Ht Hin]]. unfold getBookingsByDate in Hin.
    apply filter_In in Hin as [Hin Hw]. apply day_window in Hw as [Hd Hms].
    pose proof (dt_hour_bound _ Hms). pose proof (dt_minute_bound (b_meetingTime b)).
    unfold time_hhmm in Ht. apply hhmm_inj in Ht as [E1 E2]; try lia.
    exists b. repeat split; assumption || lia.
  - intros [b [Hin [Hd [Hms [E1 E2]]]]]. exists b. split.
    + unfold time_hhmm. rewrite E1, E2. reflexivity.
    + unfold getBookingsByDate. apply filter_In. split; [exact Hin|].
      apply day_window. split; assumption.
Qed.

(** ** Claim C9 *)

(** C9.  The labels returned are those of a list of (hour, minute) slots
    in strictly ascending order, each with hour in [9, 18) and minute 0 or
    30, and a slot of that grid is in the list exactly when no booking of
    that calendar day falls on its hour and minute. *)
Theorem C9_available_slots bookings date :
  exists ts,
    getAvailableTimeSlots bookings date = map (fun hm => display_label (fst hm) (snd hm)) ts /\
    StronglySorted slot_lt ts /\
    forall h m, In (h, m) ts <-> (9 <= h < 18 /\ (m = 0 \/ m = 30) /\ ~ booked_at bookings date h m).
Proof.
  set (booked := map (fun b => time_hhmm (b_meetingTime b)) (getBookingsByDate bookings date)).
  set (f := fun h m => negb (mem_str (pad2 h ++ txt ":" ++ pad2 m) booked)).
  exists (filter (fun hm => f (fst hm) (snd hm)) all_slots).
  split; [exact (flat_map_filter slot_hours slot_minutes f display_label)|].
  split; [apply StronglySorted_filter, all_slots_sorted|].
  intros h m. rewrite filter_In, in_all_slots. simpl.
  unfold f. rewrite negb_true_iff.
  split.
  - intros [[Hh Hm] Hf]. split; [exact Hh|]. split; [exact Hm|].
    intros Hk. apply booked_mem in Hk; [|lia ..]. unfold booked in Hf. congruence.
  - intros [Hh [Hm Hk]]. split; [split; assumption|].
    destruct (mem_str _ _) eqn:E; [|reflexivity]. exfalso. apply Hk.
    apply booked_mem; [lia | lia | exact E].
Qed.

(** ** Claim C3 *)

Lemma search_eq ic r p s : search ic r p s =
  match mt ic r p s [] with
  | (p', s', cp) :: _ => Some (MRes [] (firstn (length s - length s') s) p' s' cp)
  | [] => match s with
          | [] => None
          | c :: t => match search ic r (Some c) t with
                      | Some m => Some (MRes (c :: m_pre m) (m_whole m) (m_prev m)
                                             (m_rest m) (m_caps m))
                      | None => None
                      end
          end
  end.
Proof. destruct s; reflexivity. Qed.

(** A match at some position makes the leftmost search succeed. *)
Lemma search_found_at ic r a : forall p s, mt ic r (last_of p a) s [] <> [] ->
  search ic r p (a ++ s) <> None.
Proof.
  induction a as [|c a IH]; intros p s H.
  - simpl app. change (last_of p []) with p in H. rewrite search_eq.
    destruct (mt ic r p s []) as [|[[? ?] ?] ?]; [contradiction | discriminate].
  - change ((c :: a) ++ s) with (c :: (a ++ s)). rewrite search_eq.
    destruct (mt ic r p (c :: a ++ s) []) as [|[[? ?] ?] ?]; [|discriminate].
    specialize (IH (Some c) s H).
    destruct (search ic r (Some c) (a ++ s)); [discriminate | contradiction].
Qed.

Lemma negated_busy_at : Forall (fun n => forall p b,
  mt true (rx rx_negated_busy) p (txt n ++ txt " busy" ++ b) [] <> [] /\
  mt true (rx rx_negated_busy) p (txt n ++ txt " be busy" ++ b) [] <> []) busy_negators.
Proof.
  unfold busy_negators.
  repeat (apply Forall_cons; [intros p b; split; vm_compute; discriminate|]).
  apply Forall_nil.
Qed.

Lemma rtest_found x a s : mt (rx_i x) (rx x) (last_of None a) s [] <> [] -> rtest x (a ++ s) = true.
Proof.
  intros H. unfold rtest, rsearch.
  destruct (search _ _ _ _) eqn:E; [reflexivity|].
  exfalso. exact (search_found_at _ _ a None s H E).
Qed.

(** C3.  [isBusyRejection] holds exactly when the word [busy] occurs and
    no negator (optionally followed by [be]) stands before a [busy]; each
    negator of [isBusyRejection] followed by [busy] or [be busy] makes it
    false, wherever it occurs; a busy rejection is a rejection.  On the
    three documented utterances (with a slot ["10:00 AM"] pending): the
    first is a rejection without alternative, the second a rejection whose
    alternative ["3:00 PM"] becomes [meetingPreference], the third no
    rejection (the data is unchanged). *)
Theorem C3_busy_rejection_classifier :
  (forall t, isBusyRejection t = true <->
             rtest rx_raw_busy t = true /\ rtest rx_negated_busy t = false) /\
  Forall (fun n => forall a b,
            isBusyRejection (a ++ txt n ++ txt " busy" ++ b) = false /\
            isBusyRejection (a ++ txt n ++ txt " be busy" ++ b) = false) busy_negators /\
  (forall t, implb (isBusyRejection t) (hasRejection t) = true) /\
  hasRejection (trim (toLowerCase (txt "no that doesn't work"))) = true /\
  find_alternative alternativePatterns (txt "no that doesn't work") = None /\
  extractCollectedData cd_pending (txt "no that doesn't work") reply_askFor_null
    = inr (set_lastSuggestedSlot (set_rejectedSlots cd_pending [txt "10:00 AM"]) None) /\
  hasRejection (trim (toLowerCase (txt "no, but 3pm works"))) = true /\
  find_alternative alternativePatterns (txt "no, but 3pm works") = Some (txt "3:00 PM") /\
  extractCollectedData cd_pending (txt "no, but 3pm works") reply_askFor_null
    = inr (set_meetingPreference
             (set_lastSuggestedSlot (set_rejectedSlots cd_pending [txt "10:00 AM"]) None)
             (Some (txt "3:00 PM"))) /\
  hasRejection (trim (toLowerCase (txt "I won't be busy then"))) = false /\
  extractCollectedData cd_pending (txt "I won't be busy then") reply_askFor_null = inr cd_pending.
Proof.
  split.
  { intros t. unfold isBusyRejection.
    destruct (rtest rx_raw_busy t), (rtest rx_negated_busy t); simpl; intuition congruence. }
  split.
  { pose proof negated_busy_at as Hn. rewrite Forall_forall in Hn |- *.
    intros n Hin a b. destruct (Hn n Hin (last_of None a) b) as [H1 H2].
    unfold isBusyRejection.
    rewrite (rtest_found rx_negated_busy a _ H1), (rtest_found rx_negated_busy a _ H2).
    destruct (rtest rx_raw_busy _), (rtest rx_raw_busy _); split; reflexivity. }
  split.
  { intros t. unfold hasRejection. destruct (isBusyRejection t); [rewrite orb_true_r|]; reflexivity. }
  vm_compute. repeat split; reflexivity.
Qed.

(** ** Maps *)

Lemma map_get_set {V : Type} (m : list (str * V)) k v k' :
  map_get (map_set m k v) k' = if str_eqb k k' then Some v else map_get m k'.
Proof.
  induction m as [|[k0 v0] t IH]; simpl.
  - reflexivity.
  - destruct (str_eqb k0 k) eqn:E0.
    + apply str_eqb_eq in E0; subst k0. simpl. destruct (str_eqb k k'); reflexivity.
    + simpl. rewrite IH. destruct (str_eqb k0 k') eqn:E1; [|reflexivity].
      apply str_eqb_eq in E1; subst k'. rewrite str_eqb_false in E0.
      destruct (str_eqb k k0) eqn:E2; [|reflexivity].
      apply str_eqb_eq in E2; congruence.
Qed.

Lemma map_get_In {V : Type} (m : list (str * V)) k v :
  map_get m k = Some v -> In v (map snd m).
Proof.
  induction m as [|[k0 v0] t IH]; simpl; [discriminate|].
  destruct (str_eqb k0 k).
  - intros H. injection H as <-. left. reflexivity.
  - intros H. right. apply IH, H.
Qed.

Lemma map_set_fresh {V : Type} (m : list (str * V)) k v :
  map_get m k = None -> map_set m k v = m ++ [(k, v)].
Proof.
  induction m as [|[k0 v0] t IH]; simpl; [reflexivity|].
  destruct (str_eqb k0 k); [discriminate|].
  intros H. rewrite IH by exact H. reflexivity.
Qed.

(** ** Text-to-speech cache *)

Lemma prefixb_app p s : prefixb p (p ++ s) = true.
Proof.
  induction p as [|c p IH]; simpl; [reflexivity|].
  rewrite IH, andb_true_r. unfold ascii_eqb. apply Ascii.eqb_refl.
Qed.

Lemma generateTTSInternal_url apiKey fetch text u :
  snd (generateTTSInternal apiKey fetch text) = Some u ->
  prefixb (txt "data:audio/mpeg;base64,") u = true.
Proof.
  unfold generateTTSInternal.
  destruct (negb (truthy (Some text)) || negb (truthy apiKey)); simpl; [discriminate|].
  destruct (fetch text); simpl; [|discriminate].
  intros H. injection H as <-. first [apply prefixb_app | reflexivity].
Qed.

Lemma phrases_short : forall p, In p CACHEABLE_PHRASES -> length p < 200.
Proof.
  assert (H : forallb (fun p => length p <? 200) CACHEABLE_PHRASES = true) by reflexivity.
  intros p Hp. rewrite forallb_forall in H. apply Nat.ltb_lt, H, Hp.
Qed.

Lemma generateTTS_ok apiKey fetch cache text :
  tts_cache_ok cache -> tts_cache_ok (fst (fst (generateTTS apiKey fetch cache text))).
Proof.
  intros Hok. unfold generateTTS.
  destruct (negb (truthy (Some text)) || negb (truthy apiKey)) eqn:Eg; [exact Hok|].
  destruct (map_get cache text) as [c|] eqn:Ec.
  - simpl. intros k e He. rewrite map_get_set in He.
    destruct (str_eqb text k) eqn:Ek.
    + apply str_eqb_eq in Ek; subst k. injection He as <-. simpl.
      apply Hok in Ec as [E1 [E2 E3]]. auto.
    + apply Hok, He.
  - unfold generateTTSInternal. rewrite Eg. simpl.
    destruct (fetch text) as [a|]; simpl; [|exact Hok].
    destruct (length text <? 200) eqn:El; [|exact Hok].
    intros k e He. rewrite map_get_set in He. destruct (str_eqb text k) eqn:Ek.
    + apply str_eqb_eq in Ek; subst k. injection He as <-. simpl.
      apply Nat.ltb_lt in El. split; [reflexivity|]. split; [exact El|].
      first [apply prefixb_app | reflexivity].
    + apply Hok, He.
Qed.

Lemma run_tts_ok apiKey calls : forall cache,
  tts_cache_ok cache -> tts_cache_ok (fst (run_tts apiKey cache calls)).
Proof.
  induction calls as [|[fetch text] rest IH]; simpl; intros cache Hok; [exact Hok|].
  pose proof (generateTTS_ok apiKey fetch cache text Hok) as H1.
  destruct (generateTTS apiKey fetch cache text) as [[c1 s1] u1]. simpl in H1.
  specialize (IH c1 H1).
  destruct (run_tts apiKey c1 rest) as [c2 s2]. exact IH.
Qed.

Lemma preGenerate_ok apiKey fetch order cache :
  (forall p, In p order -> In p CACHEABLE_PHRASES) ->
  tts_cache_ok cache -> tts_cache_ok (preGenerateTTSCache apiKey fetch order cache).
Proof.
  intros Hin Hok. unfold preGenerateTTSCache.
  destruct (negb (truthy apiKey)); [exact Hok|].
  revert cache Hok. induction order as [|p ps IH]; simpl; intros cache Hok; [exact Hok|].
  apply IH; [intros q Hq; apply Hin; right; exact Hq|].
  destruct (snd (generateTTSInternal apiKey fetch p)) as [u|] eqn:Eu; [|exact Hok].
  intros k e He. rewrite map_get_set in He. destruct (str_eqb p k) eqn:Ek.
  - apply str_eqb_eq in Ek; subst k. injection He as <-. simpl.
    split; [reflexivity|]. split; [apply phrases_short, Hin; left; reflexivity|].
    apply (generateTTSInternal_url _ _ _ _ Eu).
  - apply Hok, He.
Qed.

Lemma preGenerate_get apiKey fetch order : forall cache k,
  map_get (fold_left (fun c phrase =>
             match snd (generateTTSInternal apiKey fetch phrase) with
             | Some audioUrl => map_set c phrase (TTSEntry phrase audioUrl 0)
             | None => c
             end) order cache) k =
  if mem_str k order
  then match snd (generateTTSInternal apiKey fetch k) with
       | Some u => Some (TTSEntry k u 0)
       | None => map_get cache k
       end
  else map_get cache k.
Proof.
  induction order as [|p ps IH]; simpl; intros cache k; [reflexivity|].
  rewrite IH. unfold mem_str in *. simpl.
  destruct (str_eqb k p) eqn:Ekp.
  - apply str_eqb_eq in Ekp; subst p. simpl.
    destruct (snd (generateTTSInternal apiKey fetch k)) as [u|] eqn:Eu.
    + rewrite map_get_set, str_eqb_refl. destruct (existsb (str_eqb k) ps); reflexivity.
    + destruct (existsb (str_eqb k) ps); reflexivity.
  - simpl. assert (Hpk : str_eqb p k = false).
    { apply str_eqb_false. intros ->. rewrite str_eqb_refl in Ekp. discriminate. }
    assert (Hf : map_get (match snd (generateTTSInternal apiKey fetch p) with
                          | Some audioUrl => map_set cache p (TTSEntry p audioUrl 0)
                          | None => cache
                          end) k = map_get cache k).
    { destruct (snd (generateTTSInternal apiKey fetch p)); [|reflexivity].
      rewrite map_get_set, Hpk. reflexivity. }
    rewrite Hf. reflexivity.
Qed.

(** X1.  [generateTTS] sends a request to ElevenLabs exactly when the text
    is non-empty, a key is configured and the text has no cache entry; it
    then sends exactly one, for that text. *)
Theorem X1_tts_request_only_on_miss apiKey fetch cache text :
  snd (fst (generateTTS apiKey fetch cache text)) =
  if truthy (Some text) && truthy apiKey
     && match map_get cache text with Some _ => false | None => true end
  then [text] else [].
Proof.
  unfold generateTTS, generateTTSInternal.
  destruct (truthy (Some text)), (truthy apiKey); simpl; try reflexivity.
  destruct (map_get cache text); simpl; [reflexivity|].
  destruct (fetch text); simpl; [destruct (length text <? 200)|]; reflexivity.
Qed.

(** X2.  A call for a text that has a cache entry (with a key configured)
    sends no request, returns the entry's audio URL, increments its hit
    count and changes no other entry. *)
Theorem X2_tts_cache_hit apiKey fetch cache text e :
  truthy (Some text) = true -> truthy apiKey = true -> map_get cache text = Some e ->
  exists cache', generateTTS apiKey fetch cache text = (cache', [], Some (e_audioUrl e)) /\
    map_get cache' text = Some (TTSEntry (e_text e) (e_audioUrl e) (S (e_hits e))) /\
    forall k, k <> text -> map_get cache' k = map_get cache k.
Proof.
  intros Ht Hk Hg. unfold generateTTS. rewrite Ht, Hk, Hg. simpl.
  eexists. split; [reflexivity|]. split.
  - rewrite map_get_set, str_eqb_refl. reflexivity.
  - intros k Hne. rewrite map_get_set.
    destruct (str_eqb text k) eqn:E; [apply str_eqb_eq in E; congruence | reflexivity].
Qed.

Lemma X2_witness :
  truthy (Some (txt "Hi")) = true /\ truthy (Some (txt "key")) = true /\
  map_get [(txt "Hi", TTSEntry (txt "Hi") (txt "data:audio/mpeg;base64,AA==") 3)] (txt "Hi")
    = Some (TTSEntry (txt "Hi") (txt "data:audio/mpeg;base64,AA==") 3) /\
  exists cache', generateTTS (Some (txt "key")) (fun _ => None)
      [(txt "Hi", TTSEntry (txt "Hi") (txt "data:audio/mpeg;base64,AA==") 3)] (txt "Hi")
    = (cache', [], Some (txt "data:audio/mpeg;base64,AA==")) /\
    map_get cache' (txt "Hi") = Some (TTSEntry (txt "Hi") (txt "data:audio/mpeg;base64,AA==") 4) /\
    forall k, k <> txt "Hi" ->
      map_get cache' k = map_get [(txt "Hi", TTSEntry (txt "Hi") (txt "data:audio/mpeg;base64,AA==") 3)] k.
Proof.
  split; [reflexivity|]. split; [reflexivity|]. split; [reflexivity|].
  exact (X2_tts_cache_hit (Some (txt "key")) (fun _ => None)
           [(txt "Hi", TTSEntry (txt "Hi") (txt "data:audio/mpeg;base64,AA==") 3)] (txt "Hi")
           (TTSEntry (txt "Hi") (txt "data:audio/mpeg;base64,AA==") 3) eq_refl eq_refl eq_refl).
Defined.

(** X3.  A cache miss on a non-empty text shorter than 200 characters whose
    request succeeds returns the data URL of the audio; the next call for
    that text returns the same URL from the cache and sends no request,
    whatever the network would answer. *)
Theorem X3_tts_round_trip apiKey fetch fetch' cache text audio :
  truthy (Some text) = true -> truthy apiKey = true -> map_get cache text = None ->
  length text < 200 -> fetch text = Some audio ->
  exists cache1,
    generateTTS apiKey fetch cache text
      = (cache1, [text], Some (txt "data:audio/mpeg;base64," ++ base64 audio)) /\
    snd (fst (generateTTS apiKey fetch' cache1 text)) = [] /\
    snd (generateTTS apiKey fetch' cache1 text) = Some (txt "data:audio/mpeg;base64," ++ base64 audio).
Proof.
  intros Ht Hk Hg Hl Hf. apply Nat.ltb_lt in Hl.
  exists (map_set cache text (TTSEntry text (txt "data:audio/mpeg;base64," ++ base64 audio) 0)).
  split.
  - unfold generateTTS, generateTTSInternal. rewrite Ht, Hk, Hg. simpl. rewrite Hf, Hl. reflexivity.
  - unfold generateTTS. rewrite Ht, Hk, map_get_set, str_eqb_refl. simpl. split; reflexivity.
Qed.

Lemma X3_witness :
  truthy (Some (txt "Hi")) = true /\ truthy (Some (txt "key")) = true /\
  map_get ([] : tts_cache) (txt "Hi") = None /\ length (txt "Hi") < 200 /\
  (fun _ : str => Some [Byte.x4d]) (txt "Hi") = Some [Byte.x4d] /\
  exists cache1,
    generateTTS (Some (txt "key")) (fun _ => Some [Byte.x4d]) [] (txt "Hi")
      = (cache1, [txt "Hi"], Some (txt "data:audio/mpeg;base64," ++ base64 [Byte.x4d])) /\
    snd (fst (generateTTS (Some (txt "key")) (fun _ => None) cache1 (txt "Hi"))) = [] /\
    snd (generateTTS (Some (txt "key")) (fun _ => None) cache1 (txt "Hi"))
      = Some (txt "data:audio/mpeg;base64," ++ base64 [Byte.x4d]).
Proof.
  do 3 (split; [reflexivity|]). split; [simpl; lia|]. split; [reflexivity|].
  exact (X3_tts_round_trip (Some (txt "key")) (fun _ => Some [Byte.x4d]) (fun _ => None) []
           (txt "Hi") [Byte.x4d] eq_refl eq_refl eq_refl ltac:(simpl; lia) eq_refl).
Defined.

(** X4.  After the start-up pre-generation (its requests settling in any
    order) and any sequence of [generateTTS] calls, every cache entry is
    stored under its own text, that text is shorter than 200 characters,
    and its URL is an [audio/mpeg] base64 data URL. *)
Theorem X4_tts_cache_entries apiKey fetch order calls :
  (forall p, In p order -> In p CACHEABLE_PHRASES) ->
  tts_cache_ok (fst (run_tts apiKey (preGenerateTTSCache apiKey fetch order []) calls)).
Proof.
  intros Hin. apply run_tts_ok, preGenerate_ok; [exact Hin|].
  intros k e H. discriminate.
Qed.

Lemma X4_witness :
  (forall p, In p CACHEABLE_PHRASES -> In p CACHEABLE_PHRASES) /\
  tts_cache_ok (fst (run_tts (Some (txt "key"))
                  (preGenerateTTSCache (Some (txt "key")) (fun _ => Some [Byte.x4d])
                     CACHEABLE_PHRASES []) [((fun _ => None), txt "Hi")])).
Proof.
  split; [intros p H; exact H|].
  exact (X4_tts_cache_entries (Some (txt "key")) (fun _ => Some [Byte.x4d]) CACHEABLE_PHRASES
           [((fun _ => None), txt "Hi")] (fun p H => H)).
Defined.

(** X5.  A text of 200 characters or more is never cached: after the
    start-up pre-generation and any sequence of calls, a call for it (with
    a key configured) sends a new request and leaves it uncached. *)
Theorem X5_tts_long_text_uncached apiKey fetch order calls fetch' text :
  (forall p, In p order -> In p CACHEABLE_PHRASES) ->
  truthy apiKey = true -> 200 <= length text ->
  let cache := fst (run_tts apiKey (preGenerateTTSCache apiKey fetch order []) calls) in
  snd (fst (generateTTS apiKey fetch' cache text)) = [text] /\
  map_get (fst (fst (generateTTS apiKey fetch' cache text))) text = None.
Proof.
  intros Hin Hk Hl cache.
  assert (Hok : tts_cache_ok cache).
  { apply run_tts_ok, preGenerate_ok; [exact Hin|]. intros k e H. discriminate. }
  clearbody cache.
  assert (Hg : map_get cache text = None).
  { destruct (map_get cache text) as [e|] eqn:E; [|reflexivity].
    apply Hok in E as [_ [E _]]. lia. }
  assert (Ht : truthy (@Some str text) = true) by (destruct text; simpl in *; [lia | reflexivity]).
  assert (Hl' : (length text <? 200) = false) by (apply Nat.ltb_ge; exact Hl).
  unfold generateTTS, generateTTSInternal. rewrite Ht, Hk, Hg. simpl.
  destruct (fetch' text); simpl; [rewrite Hl'|]; split; reflexivity || exact Hg.
Qed.

Lemma X5_witness :
  (forall p, In p CACHEABLE_PHRASES -> In p CACHEABLE_PHRASES) /\
  truthy (Some (txt "key")) = true /\ 200 <= length long_text /\
  let cache := fst (run_tts (Some (txt "key"))
                     (preGenerateTTSCache (Some (txt "key")) (fun _ => None) CACHEABLE_PHRASES []) []) in
  snd (fst (generateTTS (Some (txt "key")) (fun _ => None) cache long_text)) = [long_text] /\
  map_get (fst (fst (generateTTS (Some (txt "key")) (fun _ => None) cache long_text))) long_text = None.
Proof.
  split; [intros p H; exact H|]. split; [reflexivity|]. split; [unfold long_text; rewrite repeat_length; lia|].
  exact (X5_tts_long_text_uncached (Some (txt "key")) (fun _ => None) CACHEABLE_PHRASES []
           (fun _ => None) long_text (fun p H => H) eq_refl
           ltac:(unfold long_text; rewrite repeat_length; lia)).
Defined.

(** X6.  With a key configured and the requests settling in any order,
    pre-generation leaves exactly the cacheable phrases whose request
    succeeded in the cache, each under its own text with its audio URL and
    zero hits, and nothing else. *)
Theorem X6_pregenerated_cache apiKey fetch order k :
  truthy apiKey = true ->
  (forall p, In p order <-> In p CACHEABLE_PHRASES) ->
  map_get (preGenerateTTSCache apiKey fetch order []) k =
  if mem_str k CACHEABLE_PHRASES
  then option_map (fun u => TTSEntry k u 0) (snd (generateTTSInternal apiKey fetch k))
  else None.
Proof.
  intros Hk Hin. unfold preGenerateTTSCache. rewrite Hk. cbn [negb].
  rewrite preGenerate_get.
  assert (E : mem_str k order = mem_str k CACHEABLE_PHRASES).
  { destruct (mem_str k CACHEABLE_PHRASES) eqn:E1.
    - apply mem_str_In, Hin, mem_str_In in E1. exact E1.
    - destruct (mem_str k order) eqn:E2; [|reflexivity].
      apply mem_str_In, Hin, mem_str_In in E2. congruence. }
  rewrite E. destruct (mem_str k CACHEABLE_PHRASES); [|reflexivity].
  destruct (snd (generateTTSInternal apiKey fetch k)); reflexivity.
Qed.

Lemma X6_witness :
  truthy (Some (txt "key")) = true /\
  (forall p, In p CACHEABLE_PHRASES <-> In p CACHEABLE_PHRASES) /\
  map_get (preGenerateTTSCache (Some (txt "key")) (fun _ => None) CACHEABLE_PHRASES []) (txt "Great!") =
  if mem_str (txt "Great!") CACHEABLE_PHRASES
  then option_map (fun u => TTSEntry (txt "Great!") u 0)
         (snd (generateTTSInternal (Some (txt "key")) (fun _ => None) (txt "Great!")))
  else None.
Proof.
  split; [reflexivity|]. split; [intros p; split; intros H; exact H|].
  exact (X6_pregenerated_cache (Some (txt "key")) (fun _ => None) CACHEABLE_PHRASES (txt "Great!")
           eq_refl (fun p => conj (fun H => H) (fun H => H))).
Defined.

(** ** Booking endpoint *)

Lemma forallb_In {A} (p : A -> bool) l x : forallb p l = true -> In x l -> p x = true.
Proof. rewrite forallb_forall. auto. Qed.

Lemma booking_hm_check_ok : hm_grid_check (seq 1 12) (seq 0 60) = true.
Proof. vm_compute. reflexivity. Qed.

Lemma pm_hour_check_ok : forallb (fun h => booking_hm_ok h 0 (txt "PM")) (seq 13 87) = true.
Proof. vm_compute. reflexivity. Qed.

Lemma pair_eqb_eq p q : pair_eqb p q = true -> p = q.
Proof.
  destruct p, q. unfold pair_eqb. simpl. rewrite andb_true_iff, !Nat.eqb_eq.
  intros [-> ->]. reflexivity.
Qed.

Lemma hm_grid_check_In hs ms h m ap :
  hm_grid_check hs ms = true -> In h hs -> In m ms -> In ap ampm_forms ->
  booking_hm_ok h m ap = true.
Proof.
  unfold hm_grid_check. rewrite forallb_forall. intros H Hh Hm Hap.
  specialize (H h Hh). rewrite forallb_forall in H. specialize (H m Hm).
  rewrite forallb_forall in H. exact (H ap Hap).
Qed.

Lemma booking_hm_text h m ap :
  1 <= h <= 12 -> m < 60 -> In ap ampm_forms -> booking_hm (Some (time_text h m ap)) = hm_of h m ap.
Proof.
  intros Hh Hm Hap. apply pair_eqb_eq.
  exact (hm_grid_check_In (seq 1 12) (seq 0 60) h m ap booking_hm_check_ok
           (proj2 (in_seq 12 1 h) ltac:(lia)) (proj2 (in_seq 60 0 m) ltac:(lia)) Hap).
Qed.

Lemma pm_parse_check_ok : pm_parse_check = true.
Proof. vm_compute. reflexivity. Qed.

Lemma pm_parse_ok_spec h : pm_parse_ok h = true ->
  parseTimeFromText (nat_str h ++ txt "pm") = Some (nat_str h ++ txt ":00 PM").
Proof.
  unfold pm_parse_ok. destruct (parseTimeFromText _); [|discriminate].
  intros H. apply str_eqb_eq in H. subst. reflexivity.
Qed.

Lemma pm_parse h : 12 < h < 100 ->
  parseTimeFromText (nat_str h ++ txt "pm") = Some (nat_str h ++ txt ":00 PM").
Proof.
  intros Hh. apply pm_parse_ok_spec.
  exact (forallb_In pm_parse_ok (seq 13 87) h pm_parse_check_ok (proj2 (in_seq 87 13 h) ltac:(lia))).
Qed.

Lemma booking_hm_pm_hour h : 12 < h < 100 ->
  booking_hm (Some (nat_str h ++ txt ":00 PM")) = (h + 12, 0).
Proof.
  intros Hh.
  pose proof (forallb_In _ (seq 13 87) h pm_hour_check_ok (proj2 (in_seq 87 13 h) ltac:(lia))) as H.
  assert (H2 : booking_hm (Some (nat_str h ++ txt ":00 PM")) = hm_of h 0 (txt "PM"))
    by exact (pair_eqb_eq _ _ H).
  rewrite H2. unfold hm_of. cbn [str_eqb toUpperCase].
  destruct (h =? 12) eqn:E; [apply Nat.eqb_eq in E; lia | reflexivity].
Qed.

Lemma book_split st ms now id link body :
  book st ms now id link body =
  let selectedTime :=
    if negb (truthy (bb_meetingTime body))
    then match find_session_time st (bb_name body) (bb_email body) with
         | Some t => Some t
         | None => bb_meetingTime body
         end
    else bb_meetingTime body in
  let meetingTime := setHours (DT (dt_day now + 1) (dt_ms now))
                       (fst (booking_hm selectedTime)) (snd (booking_hm selectedTime)) in
  (MemStorage (ms_users ms) (map_set (ms_bookings ms) id
     (Booking id (bb_name body) (bb_email body) meetingTime now)),
   match link with
   | Some ((_ :: _) as base) =>
       BookOk (base ++ (if includes base (txt "?") then txt "&" else txt "?") ++
               txt "name=" ++ encodeURIComponent (bb_name body) ++
               txt "&email=" ++ encodeURIComponent (bb_email body) ++
               txt "&time=" ++ encodeURIComponent
                 (match selectedTime with
                  | Some ((_ :: _) as t) => t
                  | _ => display_label (dt_hour meetingTime) (dt_minute meetingTime)
                  end))
   | _ => BookFail 500 (txt "CALENDLY_BASE_LINK environment variable not configured")
   end).
Proof.
  unfold book. cbv zeta. destruct (booking_hm _) as [h m].
  destruct link as [[|c b]|]; reflexivity.
Qed.

Lemma setHours_small d h m :
  (Z.of_nat h * 3600000 + Z.of_nat m * 60000 < 86400000)%Z ->
  setHours d h m = DT (dt_day d) (Z.of_nat h * 3600000 + Z.of_nat m * 60000).
Proof.
  intros H. unfold setHours. rewrite Z.div_small, Z.mod_small by lia. f_equal. lia.
Qed.

Lemma setHours_hour d n :
  setHours d n 0 = DT (dt_day d + Z.of_nat (n / 24)) (Z.of_nat (n mod 24) * 3600000).
Proof.
  unfold setHours. rewrite Nat2Z.inj_div, Nat2Z.inj_mod.
  replace (Z.of_nat n * 3600000 + Z.of_nat 0 * 60000)%Z with (Z.of_nat n * 3600000)%Z by lia.
  replace 86400000%Z with (24 * 3600000)%Z by reflexivity.
  rewrite Z.div_mul_cancel_r, Z.mul_mod_distr_r by lia. reflexivity.
Qed.

Lemma grid_facts h m z d : In (h, m) all_slots ->
  booking_hm (Some (display_label h m)) = (h, m) /\
  setHours d h m = DT (dt_day d) (Z.of_nat h * 3600000 + Z.of_nat m * 60000) /\
  dt_hour (DT z (Z.of_nat h * 3600000 + Z.of_nat m * 60000)) = h /\
  dt_minute (DT z (Z.of_nat h * 3600000 + Z.of_nat m * 60000)) = m /\
  (0 <= Z.of_nat h * 3600000 + Z.of_nat m * 60000 <= 86399999)%Z /\
  truthy (Some (display_label h m)) = true.
Proof.
  intros H. unfold all_slots, slot_hours, slot_minutes in H. simpl in H.
  repeat destruct H as [H|H]; try contradiction; injection H as <- <-;
    (split; [vm_compute; reflexivity|]);
    (split; [apply setHours_small; lia|]);
    (split; [reflexivity|]); (split; [reflexivity|]); (split; [lia | reflexivity]).
Qed.

Lemma avail_in bs d L :
  In L (getAvailableTimeSlots bs d) <->
  exists h m, In (h, m) all_slots /\ L = display_label h m /\
    mem_str (pad2 h ++ txt ":" ++ pad2 m)
      (map (fun b => time_hhmm (b_meetingTime b)) (getBookingsByDate bs d)) = false.
Proof.
  set (booked := map (fun b => time_hhmm (b_meetingTime b)) (getBookingsByDate bs d)).
  pose (f := fun h m => negb (mem_str (pad2 h ++ txt ":" ++ pad2 m) booked)).
  assert (E : getAvailableTimeSlots bs d
              = map (fun hm => display_label (fst hm) (snd hm))
                    (filter (fun hm => f (fst hm) (snd hm)) all_slots))
    by exact (flat_map_filter slot_hours slot_minutes f display_label).
  rewrite E, in_map_iff. split.
  - intros [[h m] [HL Hin]]. apply filter_In in Hin as [Hin Hf].
    exists h, m. split; [exact Hin|]. split; [symmetry; exact HL|].
    unfold f in Hf. cbn [fst snd] in Hf. apply negb_true_iff in Hf. exact Hf.
  - intros [h [m [Hin [HL Hf]]]]. exists (h, m). split; [symmetry; exact HL|].
    apply filter_In. split; [exact Hin|]. unfold f. cbn [fst snd]. rewrite Hf. reflexivity.
Qed.

Lemma find_session_first st1 sid s st2 nm em :
  (forall k s', In (k, s') st1 ->
     field_is (name (collectedData s')) nm && field_is (email (collectedData s')) em
     && truthy (meetingPreference (collectedData s')) = false) ->
  field_is (name (collectedData s)) nm && field_is (email (collectedData s)) em
  && truthy (meetingPreference (collectedData s)) = true ->
  find_session_time (st1 ++ (sid, s) :: st2) nm em = meetingPreference (collectedData s).
Proof.
  intros H1 H2. induction st1 as [|[k s'] t IH]; simpl.
  - rewrite H2. reflexivity.
  - rewrite (H1 k s' (or_introl eq_refl)). apply IH.
    intros k' s'' Hin. apply (H1 k' s''). right. exact Hin.
Qed.

Lemma split_on_app d a b : (forall x, In x a -> ascii_eqb x d = false) ->
  split_on d (a ++ d :: b) = a :: split_on d b.
Proof.
  induction a as [|x a IH]; simpl; intros H.
  - unfold ascii_eqb. rewrite Ascii.eqb_refl. reflexivity.
  - rewrite (H x (or_introl eq_refl)).
    rewrite IH by (intros y Hy; apply H; right; exact Hy). reflexivity.
Qed.

Lemma split_on_none d a : (forall x, In x a -> ascii_eqb x d = false) -> split_on d a = [a].
Proof.
  induction a as [|x a IH]; simpl; intros H; [reflexivity|].
  rewrite (H x (or_introl eq_refl)).
  rewrite IH by (intros y Hy; apply H; right; exact Hy). reflexivity.
Qed.

Lemma uri_char_amp_check :
  forallb (fun n => forallb (fun x => negb (ascii_eqb x "&"%char)) (uri_char (ascii_of_nat n)))
          (seq 0 256) = true.
Proof. vm_compute. reflexivity. Qed.

Lemma encode_no_amp s x : In x (encodeURIComponent s) -> ascii_eqb x "&"%char = false.
Proof.
  unfold encodeURIComponent. rewrite in_flat_map. intros [c [_ Hx]].
  pose proof uri_char_amp_check as H. rewrite forallb_forall in H.
  assert (Hc : In (nat_of_ascii c) (seq 0 256)).
  { apply in_seq. pose proof (nat_ascii_bounded c). lia. }
  specialize (H _ Hc). rewrite ascii_nat_embedding, forallb_forall in H.
  apply negb_true_iff, H, Hx.
Qed.

Lemma field_no_amp (k : string) s :
  forallb (fun x => negb (ascii_eqb x "&"%char)) (txt k) = true ->
  forall x, In x (txt k ++ encodeURIComponent s) -> ascii_eqb x "&"%char = false.
Proof.
  intros Hk x Hx. apply in_app_iff in Hx as [Hx|Hx].
  - rewrite forallb_forall in Hk. apply negb_true_iff, Hk, Hx.
  - apply (encode_no_amp s x Hx).
Qed.

Lemma query_split n e t :
  split_on "&"%char (txt "name=" ++ encodeURIComponent n ++ txt "&email=" ++
                     encodeURIComponent e ++ txt "&time=" ++ encodeURIComponent t) =
  [txt "name=" ++ encodeURIComponent n; txt "email=" ++ encodeURIComponent e;
   txt "time=" ++ encodeURIComponent t].
Proof.
  rewrite app_assoc.
  change (txt "&email=" ++ ?r) with ("&"%char :: (txt "email=" ++ r)).
  rewrite split_on_app by (apply field_no_amp; reflexivity). f_equal.
  rewrite app_assoc.
  change (txt "&time=" ++ ?r) with ("&"%char :: (txt "time=" ++ r)).
  rewrite split_on_app by (apply field_no_amp; reflexivity). f_equal.
  apply split_on_none, field_no_amp. reflexivity.
Qed.

Lemma uri_char_decode c rest :
  uri_decode (uri_char c ++ rest) = option_map (cons c) (uri_decode rest).
Proof. destruct c as [[] [] [] [] [] [] [] []]; reflexivity. Qed.

(** X7.  For a time text [H:MM AM] or [H:MM PM] with an hour from 1 to 12
    and minutes 00 to 59, the suffix in upper or lower case, the
    booking handler sets the meeting to hour H for AM (0 for 12 AM) or
    H + 12 for PM (12 for 12 PM), and to minute MM. *)
Theorem X7_booking_time_parse h m ap :
  1 <= h <= 12 -> m < 60 -> In ap [txt "AM"; txt "am"; txt "PM"; txt "pm"] ->
  booking_hm (Some (nat_str h ++ txt ":" ++ pad2 m ++ txt " " ++ ap)) =
  (if str_eqb (toUpperCase ap) (txt "PM")
   then (if h =? 12 then 12 else h + 12) else (if h =? 12 then 0 else h), m).
Proof. intros Hh Hm Hap. exact (booking_hm_text h m ap Hh Hm Hap). Qed.

Lemma X7_witness :
  1 <= 3 <= 12 /\ 30 < 60 /\ In (txt "pm") [txt "AM"; txt "am"; txt "PM"; txt "pm"] /\
  booking_hm (Some (nat_str 3 ++ txt ":" ++ pad2 30 ++ txt " " ++ txt "pm")) =
  (if str_eqb (toUpperCase (txt "pm")) (txt "PM")
   then (if 3 =? 12 then 12 else 3 + 12) else (if 3 =? 12 then 0 else 3), 30).
Proof.
  split; [lia|]. split; [lia|]. split; [simpl; tauto|].
  exact (X7_booking_time_parse 3 30 (txt "pm") ltac:(lia) ltac:(lia) ltac:(simpl; tauto)).
Defined.

(** X8.  [parseTimeFromText] accepts an hour from 13 to 99 before [pm]
    without a range check, giving [H:00 PM]; booking that time stores the
    meeting (H + 12) / 24 days after tomorrow, at hour (H + 12) mod 24,
    so never on the day the slots were offered for. *)
Theorem X8_pm_hour_overflow st ms now id link name email h :
  12 < h < 100 ->
  parseTimeFromText (nat_str h ++ txt "pm") = Some (nat_str h ++ txt ":00 PM") /\
  map_get (ms_bookings (fst (book st ms now id link
             (BookBody name email (parseTimeFromText (nat_str h ++ txt "pm")))))) id =
  Some (Booking id name email
          (DT (dt_day now + 1 + Z.of_nat ((h + 12) / 24)) (Z.of_nat ((h + 12) mod 24) * 3600000))
          now).
Proof.
  intros Hh. rewrite (pm_parse h Hh). split; [reflexivity|].
  rewrite book_split. cbv zeta. cbn [bb_meetingTime bb_name bb_email fst ms_bookings].
  assert (Ht : truthy (Some (nat_str h ++ txt ":00 PM")) = true)
    by (destruct (nat_str h); reflexivity).
  rewrite Ht. cbn [negb].
  rewrite (booking_hm_pm_hour h Hh). cbn [fst snd]. rewrite setHours_hour, map_get_set, str_eqb_refl. reflexivity.
Qed.

Lemma X8_witness :
  12 < 15 < 100 /\
  parseTimeFromText (nat_str 15 ++ txt "pm") = Some (nat_str 15 ++ txt ":00 PM") /\
  map_get (ms_bookings (fst (book [] (MemStorage [] []) (DT 0 0) (txt "b-1") None
             (BookBody (txt "Jane") (txt "jane@yahoo.com")
                (parseTimeFromText (nat_str 15 ++ txt "pm")))))) (txt "b-1") =
  Some (Booking (txt "b-1") (txt "Jane") (txt "jane@yahoo.com")
          (DT (dt_day (DT 0 0) + 1 + Z.of_nat ((15 + 12) / 24))
              (Z.of_nat ((15 + 12) mod 24) * 3600000)) (DT 0 0)).
Proof.
  split; [lia|].
  exact (X8_pm_hour_overflow [] (MemStorage [] []) (DT 0 0) (txt "b-1") None (txt "Jane")
           (txt "jane@yahoo.com") 15 ltac:(lia)).
Defined.

(** X9.  Booking a label that [getAvailableTimeSlots] offers for tomorrow
    stores the meeting tomorrow at exactly that slot's hour and minute,
    and the label is no longer offered for tomorrow afterwards. *)
Theorem X9_book_offered_slot st ms now id link name email L :
  In L (ms_getAvailableTimeSlots ms (DT (dt_day now + 1) (dt_ms now))) ->
  let ms' := fst (book st ms now id link (BookBody name email (Some L))) in
  exists h m, 9 <= h < 18 /\ (m = 0 \/ m = 30) /\ L = display_label h m /\
    map_get (ms_bookings ms') id =
      Some (Booking id name email
              (DT (dt_day now + 1) (Z.of_nat h * 3600000 + Z.of_nat m * 60000)) now) /\
    ~ In L (ms_getAvailableTimeSlots ms' (DT (dt_day now + 1) (dt_ms now))).
Proof.
  intros HL ms'. unfold ms_getAvailableTimeSlots in HL.
  apply avail_in in HL as [h [m [Hg [HL _]]]]. subst L.
  destruct (grid_facts h m (dt_day now + 1) (DT (dt_day now + 1) (dt_ms now)) Hg)
    as [Hb [Hs [Hhr [Hmn [Hbd Ht]]]]].
  assert (Hms : map_get (ms_bookings ms') id =
                Some (Booking id name email
                        (DT (dt_day now + 1) (Z.of_nat h * 3600000 + Z.of_nat m * 60000)) now)).
  { unfold ms'. rewrite book_split. cbv zeta. cbn [bb_meetingTime bb_name bb_email fst ms_bookings].
    rewrite Ht. cbn [negb]. rewrite Hb. cbn [fst snd]. rewrite Hs.
    rewrite map_get_set, str_eqb_refl. reflexivity. }
  exists h, m. pose proof Hg as Hg2. apply in_all_slots in Hg2.
  split; [lia|]. split; [tauto|]. split; [reflexivity|]. split; [exact Hms|].
  intros Hin. unfold ms_getAvailableTimeSlots in Hin.
  apply avail_in in Hin as [h' [m' [Hg' [HL' Hmem]]]].
  destruct (grid_facts h' m' (dt_day now + 1) (DT (dt_day now + 1) (dt_ms now)) Hg')
    as [Hb' _].
  rewrite <- HL', Hb in Hb'. injection Hb' as <- <-.
  assert (Hk : mem_str (pad2 h ++ txt ":" ++ pad2 m)
                 (map (fun b => time_hhmm (b_meetingTime b))
                      (getBookingsByDate (map snd (ms_bookings ms')) (DT (dt_day now + 1) (dt_ms now))))
               = true).
  { apply booked_mem; [lia | lia |].
    exists (Booking id name email (DT (dt_day now + 1) (Z.of_nat h * 3600000 + Z.of_nat m * 60000)) now).
    split; [apply (map_get_In _ id), Hms|]. simpl. split; [reflexivity|].
    split; [exact Hbd|]. split; [exact Hhr | exact Hmn]. }
  congruence.
Qed.

Lemma X9_witness :
  In (txt "9:00 AM") (ms_getAvailableTimeSlots (MemStorage [] []) (DT (dt_day (DT 0 0) + 1) (dt_ms (DT 0 0)))) /\
  let ms' := fst (book [] (MemStorage [] []) (DT 0 0) (txt "b-1") None
                      (BookBody (txt "Jane") (txt "jane@yahoo.com") (Some (txt "9:00 AM")))) in
  exists h m, 9 <= h < 18 /\ (m = 0 \/ m = 30) /\ txt "9:00 AM" = display_label h m /\
    map_get (ms_bookings ms') (txt "b-1") =
      Some (Booking (txt "b-1") (txt "Jane") (txt "jane@yahoo.com")
              (DT (dt_day (DT 0 0) + 1) (Z.of_nat h * 3600000 + Z.of_nat m * 60000)) (DT 0 0)) /\
    ~ In (txt "9:00 AM") (ms_getAvailableTimeSlots ms' (DT (dt_day (DT 0 0) + 1) (dt_ms (DT 0 0)))).
Proof.
  split; [vm_compute; left; reflexivity|].
  exact (X9_book_offered_slot [] (MemStorage [] []) (DT 0 0) (txt "b-1") None (txt "Jane")
           (txt "jane@yahoo.com") (txt "9:00 AM") ltac:(vm_compute; left; reflexivity)).
Defined.

(** X10.  When [CALENDLY_BASE_LINK] is unset or empty, the handler answers
    500 with the configuration error, yet the booking has already been
    stored under the drawn id, with the request's name and email. *)
Theorem X10_book_without_calendly_link st ms now id link body :
  truthy link = false ->
  exists b, book st ms now id link body =
    (MemStorage (ms_users ms) (map_set (ms_bookings ms) id b),
     BookFail 500 (txt "CALENDLY_BASE_LINK environment variable not configured")) /\
    b_id b = id /\ b_name b = bb_name body /\ b_email b = bb_email body.
Proof.
  intros Hl. rewrite book_split. cbv zeta.
  destruct link as [[|c b]|]; [| discriminate |];
    (eexists; split; [reflexivity | repeat split]).
Qed.

Lemma X10_witness :
  truthy None = false /\
  exists b, book [] (MemStorage [] []) (DT 0 0) (txt "b-1") None
              (BookBody (txt "Jane") (txt "jane@yahoo.com") None) =
    (MemStorage (ms_users (MemStorage [] [])) (map_set (ms_bookings (MemStorage [] [])) (txt "b-1") b),
     BookFail 500 (txt "CALENDLY_BASE_LINK environment variable not configured")) /\
    b_id b = txt "b-1" /\ b_name b = bb_name (BookBody (txt "Jane") (txt "jane@yahoo.com") None) /\
    b_email b = bb_email (BookBody (txt "Jane") (txt "jane@yahoo.com") None).
Proof.
  split; [reflexivity|].
  exact (X10_book_without_calendly_link [] (MemStorage [] []) (DT 0 0) (txt "b-1") None
           (BookBody (txt "Jane") (txt "jane@yahoo.com") None) eq_refl).
Defined.

(** X11.  A request without a (non-empty) meeting time, for which no session
    of the same name and email holds a meeting preference, books tomorrow
    at 12:30, and the Calendly link carries the time [12:30 PM]. *)
Theorem X11_book_default_time st ms now id link body :
  truthy (bb_meetingTime body) = false ->
  find_session_time st (bb_name body) (bb_email body) = None ->
  map_get (ms_bookings (fst (book st ms now id link body))) id =
    Some (Booking id (bb_name body) (bb_email body) (DT (dt_day now + 1) 45000000) now) /\
  forall base, link = Some base -> base <> [] ->
    snd (book st ms now id link body) =
    BookOk (base ++ (if includes base (txt "?") then txt "&" else txt "?") ++
            txt "name=" ++ encodeURIComponent (bb_name body) ++
            txt "&email=" ++ encodeURIComponent (bb_email body) ++ txt "&time=12%3A30%20PM").
Proof.
  intros Hmt Hf. destruct body as [n e mt]. cbn [bb_meetingTime bb_name bb_email] in *.
  rewrite book_split. cbv zeta. cbn [bb_meetingTime bb_name bb_email fst snd ms_bookings].
  rewrite Hmt, Hf. cbn [negb].
  assert (Hb : booking_hm mt = (12, 30)) by (destruct mt as [[|c t]|]; [reflexivity | discriminate | reflexivity]).
  rewrite Hb. cbn [fst snd].
  rewrite (setHours_small _ 12 30) by lia. cbn [dt_day].
  split.
  - rewrite map_get_set, str_eqb_refl. reflexivity.
  - intros base -> Hne. destruct base as [|c b]; [congruence|].
    destruct mt as [[|c' t]|]; [reflexivity | discriminate | reflexivity].
Qed.

Lemma X11_witness :
  truthy (bb_meetingTime (BookBody (txt "Jane") (txt "jane@yahoo.com") None)) = false /\
  find_session_time [] (txt "Jane") (txt "jane@yahoo.com") = None /\
  map_get (ms_bookings (fst (book [] (MemStorage [] []) (DT 0 0) (txt "b-1")
             (Some (txt "https://calendly.com/demo"))
             (BookBody (txt "Jane") (txt "jane@yahoo.com") None)))) (txt "b-1") =
    Some (Booking (txt "b-1") (txt "Jane") (txt "jane@yahoo.com") (DT (dt_day (DT 0 0) + 1) 45000000) (DT 0 0)) /\
  forall base, Some (txt "https://calendly.com/demo") = Some base -> base <> [] ->
    snd (book [] (MemStorage [] []) (DT 0 0) (txt "b-1") (Some (txt "https://calendly.com/demo"))
           (BookBody (txt "Jane") (txt "jane@yahoo.com") None)) =
    BookOk (base ++ (if includes base (txt "?") then txt "&" else txt "?") ++
            txt "name=" ++ encodeURIComponent (txt "Jane") ++
            txt "&email=" ++ encodeURIComponent (txt "jane@yahoo.com") ++ txt "&time=12%3A30%20PM").
Proof.
  split; [reflexivity|]. split; [reflexivity|].
  exact (X11_book_default_time [] (MemStorage [] []) (DT 0 0) (txt "b-1")
           (Some (txt "https://calendly.com/demo"))
           (BookBody (txt "Jane") (txt "jane@yahoo.com") None) eq_refl eq_refl).
Defined.

(** X12.  A request without a (non-empty) meeting time is booked exactly as
    if it carried the meeting preference of the first session, in creation
    order, whose collected name and email equal the request's and whose
    meeting preference is set. *)
Theorem X12_book_first_session_preference st1 sid s st2 ms now id link nm em mt :
  truthy mt = false ->
  (forall k s', In (k, s') st1 ->
     field_is (name (collectedData s')) nm && field_is (email (collectedData s')) em
     && truthy (meetingPreference (collectedData s')) = false) ->
  field_is (name (collectedData s)) nm && field_is (email (collectedData s)) em
  && truthy (meetingPreference (collectedData s)) = true ->
  book (st1 ++ (sid, s) :: st2) ms now id link (BookBody nm em mt) =
  book (st1 ++ (sid, s) :: st2) ms now id link (BookBody nm em (meetingPreference (collectedData s))).
Proof.
  intros Hmt H1 H2. rewrite !book_split. cbv zeta. cbn [bb_meetingTime bb_name bb_email].
  rewrite (find_session_first st1 sid s st2 nm em H1 H2), Hmt.
  apply andb_true_iff in H2 as [_ H2]. rewrite H2. cbn [negb].
  destruct (meetingPreference (collectedData s)) as [[|c t]|]; [discriminate | reflexivity | discriminate].
Qed.

Lemma X12_witness :
  truthy None = false /\
  (forall k s', In (k, s') ([] : list (str * session)) ->
     field_is (name (collectedData s')) (txt "Jane") && field_is (email (collectedData s')) (txt "jane@yahoo.com")
     && truthy (meetingPreference (collectedData s')) = false) /\
  field_is (name (collectedData session_booked)) (txt "Jane")
  && field_is (email (collectedData session_booked)) (txt "jane@yahoo.com")
  && truthy (meetingPreference (collectedData session_booked)) = true /\
  book ([] ++ (sid_demo, session_booked) :: []) (MemStorage [] []) (DT 0 0) (txt "b-1") None
       (BookBody (txt "Jane") (txt "jane@yahoo.com") None) =
  book ([] ++ (sid_demo, session_booked) :: []) (MemStorage [] []) (DT 0 0) (txt "b-1") None
       (BookBody (txt "Jane") (txt "jane@yahoo.com") (meetingPreference (collectedData session_booked))).
Proof.
  split; [reflexivity|]. split; [intros k s' []|]. split; [reflexivity|].
  exact (X12_book_first_session_preference [] sid_demo session_booked [] (MemStorage [] []) (DT 0 0)
           (txt "b-1") None (txt "Jane") (txt "jane@yahoo.com") None eq_refl
           (fun k s' H => match H with end) eq_refl).
Defined.

(** X13.  With a Calendly base link configured, the answer is the base
    link, a separator ([&] when the link already has a [?], else [?]) and a
    query that splits at [&] into exactly three fields: the percent-encoded
    name, email and time, the time being the request's when it has one. *)
Theorem X13_calendly_url_fields st ms now id base body :
  base <> [] ->
  exists q ft,
    snd (book st ms now id (Some base) body) =
      BookOk (base ++ (if includes base (txt "?") then txt "&" else txt "?") ++ q) /\
    split_on "&"%char q = [txt "name=" ++ encodeURIComponent (bb_name body);
                           txt "email=" ++ encodeURIComponent (bb_email body);
                           txt "time=" ++ encodeURIComponent ft] /\
    (truthy (bb_meetingTime body) = true -> bb_meetingTime body = Some ft).
Proof.
  intros Hne. destruct body as [n e mt]. rewrite book_split. cbv zeta.
  cbn [bb_meetingTime bb_name bb_email snd].
  destruct base as [|c b]; [congruence|].
  eexists; eexists; split; [reflexivity|]. split.
  - apply query_split.
  - intros Ht. destruct mt as [[|c' t]|]; [discriminate | reflexivity | discriminate].
Qed.

Lemma X13_witness :
  txt "https://calendly.com/demo" <> [] /\
  exists q ft,
    snd (book [] (MemStorage [] []) (DT 0 0) (txt "b-1") (Some (txt "https://calendly.com/demo"))
           (BookBody (txt "Jane") (txt "jane@yahoo.com") (Some (txt "9:00 AM")))) =
      BookOk (txt "https://calendly.com/demo" ++
              (if includes (txt "https://calendly.com/demo") (txt "?") then txt "&" else txt "?") ++ q) /\
    split_on "&"%char q = [txt "name=" ++ encodeURIComponent (txt "Jane");
                           txt "email=" ++ encodeURIComponent (txt "jane@yahoo.com");
                           txt "time=" ++ encodeURIComponent ft] /\
    (truthy (Some (txt "9:00 AM")) = true -> Some (txt "9:00 AM") = Some ft).
Proof.
  split; [discriminate|].
  exact (X13_calendly_url_fields [] (MemStorage [] []) (DT 0 0) (txt "b-1")
           (txt "https://calendly.com/demo")
           (BookBody (txt "Jane") (txt "jane@yahoo.com") (Some (txt "9:00 AM"))) ltac:(discriminate)).
Defined.

(** X14.  [encodeURIComponent] loses nothing: decoding its output gives
    back the input, for every text of code points below 256. *)
Theorem X14_encodeURIComponent_round_trip s : uri_decode (encodeURIComponent s) = Some s.
Proof.
  induction s as [|c s IH]; [reflexivity|].
  unfold encodeURIComponent in *. cbn [flat_map]. rewrite uri_char_decode, IH. reflexivity.
Qed.

(** ** In-memory storage *)

(** X15.  [createUser] returns the user built from the drawn id and the
    given username and password, and afterwards [getUser] finds it under
    that id while every other id keeps its previous answer. *)
Theorem X15_createUser_getUser ms id username password k :
  snd (createUser ms id username password) = User id username password /\
  getUser (fst (createUser ms id username password)) k =
  if str_eqb id k then Some (User id username password) else getUser ms k.
Proof. split; [reflexivity|]. unfold getUser, createUser. simpl. apply map_get_set. Qed.

(** X16.  [createUser] does not reject a taken username: with a fresh id,
    [getUserByUsername] afterwards still returns the earlier user of that
    name if there is one, and the new user only otherwise. *)
Theorem X16_getUserByUsername_earliest ms id username password u :
  getUser ms id = None ->
  getUserByUsername (fst (createUser ms id username password)) u =
  match getUserByUsername ms u with
  | Some x => Some x
  | None => if str_eqb username u then Some (User id username password) else None
  end.
Proof.
  unfold getUser, getUserByUsername, createUser. cbn [fst ms_users]. intros H.
  rewrite map_set_fresh by exact H. rewrite map_app. cbn [map snd].
  induction (map snd (ms_users ms)) as [|x t IH]; simpl; [reflexivity|].
  destruct (str_eqb (u_username x) u); [reflexivity | exact IH].
Qed.

Lemma X16_witness :
  getUser users_demo (txt "u-2") = None /\
  getUserByUsername (fst (createUser users_demo (txt "u-2") (txt "ann") (txt "pw2"))) (txt "ann") =
  match getUserByUsername users_demo (txt "ann") with
  | Some x => Some x
  | None => if str_eqb (txt "ann") (txt "ann") then Some (User (txt "u-2") (txt "ann") (txt "pw2")) else None
  end.
Proof.
  split; [reflexivity|].
  exact (X16_getUserByUsername_earliest users_demo (txt "u-2") (txt "ann") (txt "pw2") (txt "ann") eq_refl).
Defined.

(** X17.  With a fresh id, [createBooking] adds exactly one booking:
    [getBookingsByDate] of any date afterwards returns the earlier result
    followed by the new booking when its meeting falls on that date. *)
Theorem X17_createBooking_getBookingsByDate ms id now name email mt d :
  map_get (ms_bookings ms) id = None ->
  ms_getBookingsByDate (fst (createBooking ms id now name email mt)) d =
  ms_getBookingsByDate ms d ++
  (if dt_le (DT (dt_day d) 0) mt && dt_le mt (DT (dt_day d) 86399999)
   then [Booking id name email mt now] else []).
Proof.
  intros H. unfold ms_getBookingsByDate, createBooking, getBookingsByDate. cbn [fst ms_bookings].
  rewrite map_set_fresh by exact H. rewrite map_app, filter_app. reflexivity.
Qed.

Lemma X17_witness :
  map_get (ms_bookings (MemStorage [] [])) (txt "b-1") = None /\
  ms_getBookingsByDate (fst (createBooking (MemStorage [] []) (txt "b-1") (DT 0 0) (txt "Jane")
                              (txt "jane@yahoo.com") (DT 1 32400000))) (DT 1 0) =
  ms_getBookingsByDate (MemStorage [] []) (DT 1 0) ++
  (if dt_le (DT (dt_day (DT 1 0)) 0) (DT 1 32400000) && dt_le (DT 1 32400000) (DT (dt_day (DT 1 0)) 86399999)
   then [Booking (txt "b-1") (txt "Jane") (txt "jane@yahoo.com") (DT 1 32400000) (DT 0 0)] else []).
Proof.
  split; [reflexivity|].
  exact (X17_createBooking_getBookingsByDate (MemStorage [] []) (txt "b-1") (DT 0 0) (txt "Jane")
           (txt "jane@yahoo.com") (DT 1 32400000) (DT 1 0) eq_refl).
Defined.

(** ** WebSocket endpoint *)

Lemma json_is_other o s1 s2 : json_is o s1 = true -> str_eqb s1 s2 = false -> json_is o s2 = false.
Proof.
  destruct o as [[]|]; simpl; try discriminate.
  intros H1 H2. apply str_eqb_eq in H1. subst. exact H2.
Qed.

(** X18.  A message that is not JSON, is [null], has no [voice_agent] or
    [voice_agent_stream] type or carries invalid request data gets exactly
    one frame in reply, leaves the session store unchanged and calls no
    LLM provider. *)
Theorem X18_ws_no_turn st ev data :
  ws_turn_request data = None -> exists f, ws_message st ev data = (st, [], [f]).
Proof.
  unfold ws_turn_request, ws_message. intros H.
  destruct (JSON_parse data) as [m|]; [|eexists; reflexivity].
  destruct m; [eexists; reflexivity| ..]; cbv beta iota zeta in H |- *;
    (destruct (json_is _ (txt "voice_agent")) eqn:E1; cbn [orb] in H;
      [rewrite H; eexists; reflexivity|]);
    (destruct (json_is _ (txt "voice_agent_stream")) eqn:E2; cbn [orb] in H;
      [rewrite H; eexists; reflexivity|]);
    destruct (json_is _ (txt "ping")); eexists; reflexivity.
Qed.

Lemma X18_witness : ws_turn_request ws_ping = None /\ exists f, ws_message [] env_llm_down ws_ping = ([], [], [f]).
Proof.
  split; [vm_compute; reflexivity|].
  exact (X18_ws_no_turn [] env_llm_down ws_ping ltac:(vm_compute; reflexivity)).
Defined.

(** X19.  A [voice_agent] message with valid data (its [\uXXXX] escapes
    decoded, for the code points below 256 that this model's text holds)
    runs exactly the turn of [processVoiceAgentRequest] (same store and
    provider calls) and gets one frame: the response with the request's
    [messageId], or, when the turn throws, an error frame whose
    [messageId] is ['unknown']. *)
Theorem X19_ws_voice_agent st ev data m rq :
  JSON_parse data = Some m ->
  json_is (obj_get m (txt "type")) (txt "voice_agent") = true ->
  parseVoiceAgentRequest (obj_get m (txt "data")) = Some rq ->
  ws_message st ev data =
  let '(st', calls, r) := processVoiceAgentRequest st rq ev in
  (st', calls, [match r with
                | inr response => FVoiceResponse response (obj_get m (txt "messageId"))
                | inl e => FError (Some (exn_message e)) unknown_id
                end]).
Proof.
  intros H1 H2 H3. unfold ws_message. rewrite H1.
  destruct m; try (simpl in H2; discriminate); cbv beta iota zeta.
  rewrite H2, H3. destruct (processVoiceAgentRequest st rq ev) as [[st' calls] [e|resp]]; reflexivity.
Qed.

Lemma X19_witness :
  JSON_parse ws_voice_demo = Some ws_voice_json /\
  json_is (obj_get ws_voice_json (txt "type")) (txt "voice_agent") = true /\
  parseVoiceAgentRequest (obj_get ws_voice_json (txt "data")) = Some rq_demo /\
  ws_message [] env_llm_down ws_voice_demo =
  let '(st', calls, r) := processVoiceAgentRequest [] rq_demo env_llm_down in
  (st', calls, [match r with
                | inr response => FVoiceResponse response (obj_get ws_voice_json (txt "messageId"))
                | inl e => FError (Some (exn_message e)) unknown_id
                end]).
Proof.
  split; [vm_compute; reflexivity|]. split; [vm_compute; reflexivity|].
  split; [vm_compute; reflexivity|].
  exact (X19_ws_voice_agent [] env_llm_down ws_voice_demo ws_voice_json rq_demo
           ltac:(vm_compute; reflexivity) ltac:(vm_compute; reflexivity) ltac:(vm_compute; reflexivity)).
Defined.

(** X20.  A [voice_agent_stream] message with valid data (its [\uXXXX]
    escapes decoded, for the code points below 256 that this model's text
    holds) runs the same turn and gets exactly two frames, both with the
    request's [messageId]: a stream start with the session id, then the
    completed response or, when the turn throws, a stream error with its
    message. *)
Theorem X20_ws_voice_agent_stream st ev data m rq :
  JSON_parse data = Some m ->
  json_is (obj_get m (txt "type")) (txt "voice_agent_stream") = true ->
  parseVoiceAgentRequest (obj_get m (txt "data")) = Some rq ->
  ws_message st ev data =
  let '(st', calls, r) := processVoiceAgentRequest st rq ev in
  (st', calls, [FStreamStart (obj_get m (txt "messageId")) (req_sessionId rq);
                match r with
                | inr response => FStreamComplete (obj_get m (txt "messageId")) response
                | inl e => FStreamError (obj_get m (txt "messageId")) (exn_message e)
                end]).
Proof.
  intros H1 H2 H3. unfold ws_message. rewrite H1.
  destruct m; try (simpl in H2; discriminate); cbv beta iota zeta.
  rewrite (json_is_other _ _ (txt "voice_agent") H2 eq_refl), H2, H3.
  unfold handleStreamingVoiceAgent, processVoiceAgentRequestStreaming.
  destruct (processVoiceAgentRequest st rq ev) as [[st' calls] [e|resp]]; reflexivity.
Qed.

Lemma X20_witness :
  JSON_parse ws_stream_demo = Some ws_stream_json /\
  json_is (obj_get ws_stream_json (txt "type")) (txt "voice_agent_stream") = true /\
  parseVoiceAgentRequest (obj_get ws_stream_json (txt "data")) = Some rq_demo /\
  ws_message [] env_llm_down ws_stream_demo =
  let '(st', calls, r) := processVoiceAgentRequest [] rq_demo env_llm_down in
  (st', calls, [FStreamStart (obj_get ws_stream_json (txt "messageId")) (req_sessionId rq_demo);
                match r with
                | inr response => FStreamComplete (obj_get ws_stream_json (txt "messageId")) response
                | inl e => FStreamError (obj_get ws_stream_json (txt "messageId")) (exn_message e)
                end]).
Proof.
  split; [vm_compute; reflexivity|]. split; [vm_compute; reflexivity|].
  split; [vm_compute; reflexivity|].
  exact (X20_ws_voice_agent_stream [] env_llm_down ws_stream_demo ws_stream_json rq_demo
           ltac:(vm_compute; reflexivity) ltac:(vm_compute; reflexivity) ltac:(vm_compute; reflexivity)).
Defined.
